(** * node-fastbill: the Customer resource client (src/lib/customer.js)

    A shallow embedding of the four methods of [class Customer]
    ([get], [create], [update], [remove]) and of the JavaScript
    machinery they run on: values and truthiness, a store of mutable
    objects addressed by reference, exceptions, the promise every
    method returns, and the Transport ([this.$request]) the methods
    hand their request descriptor and their [onResult] callback to. *)

From Stdlib Require Import Floats.SpecFloat.
From stdpp Require Import gmap strings list fin_maps.

Open Scope string_scope.

(** ** Values and the store *)

Definition loc := positive.

(** JavaScript values.  Numbers are IEEE doubles ([spec_float] has the
    two zeros, the infinities and NaN); objects are references into the
    store, so that two holders of one reference see each other's writes.
    The values are data: no value is callable (hence none is a thenable). *)
Inductive value :=
| VUndefined
| VNull
| VBool (b : bool)
| VNumber (x : spec_float)
| VString (s : string)
| VRef (l : loc).

(** What an object was built as: an object literal or [JSON] mapping,
    an array, or an [Error]. *)
Inductive class := Plain | Array | ErrorObject.

(** An object of the store: what it was built as, its own data
    properties, whether it is extensible ([Object.preventExtensions],
    [Object.seal] and [Object.freeze] make it not), and the keys an
    assignment to it is refused for (a property that is not writable, as
    [Object.freeze] and [Object.defineProperty] make them). *)
Record object := MakeObject {
  o_class : class;
  o_props : gmap string value;
  o_extensible : bool;
  o_readonly : gset string
}.

(** An ordinary object, as an object literal and [JSON.parse] build
    them: extensible, every property writable. *)
Definition Object (c : class) (ps : gmap string value) : object :=
  MakeObject c ps true ∅.

(** [Object.freeze] of an ordinary mapping: not extensible, no property
    writable. *)
Definition frozen (ps : gmap string value) : object :=
  MakeObject Plain ps false (dom ps).

(** [Object.preventExtensions] of an ordinary mapping: the properties
    it has stay writable, none can be added. *)
Definition inextensible (ps : gmap string value) : object :=
  MakeObject Plain ps false ∅.

(** Whether [o.key = x] goes through: the key is not refused, and it is
    a property of [o] already or [o] can take a new one. *)
Definition assignable (o : object) (key : string) : bool :=
  if decide (key ∈ o_readonly o) then false
  else match o_props o !! key with
       | Some _ => true
       | None => o_extensible o
       end.

(** [o] after [o.key = x] went through. *)
Definition assign (o : object) (key : string) (x : value) : object :=
  MakeObject (o_class o) (<[key := x]> (o_props o)) (o_extensible o) (o_readonly o).

Abbreviation store := (gmap loc object).

(** Modelled from the spec: [./utils/errors] is not part of the sources.
    What a method throws and what a promise is rejected with: the
    TypeError-kind error of the type check, the language's own
    [TypeError], "InvalidRequestError{message, detail: <transport
    error>}" holding the two fields of the literal it is built from, and
    whatever Transport throws. *)
Inductive error :=
| FastbillTypeError
| TypeError
| FastbillInvalidRequestError (message : string) (detail : value)
| Thrown (v : value).

(** The TypeError-kind errors: the type check's and the language's own
    (a property access on [null] or [undefined]). *)
Definition TypeError_kind (e : error) : bool :=
  match e with FastbillTypeError | TypeError => true | _ => false end.

(** ** The promise and the request log *)

Inductive settlement := Fulfilled (v : value) | Rejected (e : error).

Inductive promise := Pending | Settled (s : settlement).

(** [{service: ..., data: ...}]: the fields of the literal, in source order. *)
Definition descriptor := list (string * value).

Fixpoint field (d : descriptor) (key : string) : option value :=
  match d with
  | [] => None
  | (k, v) :: d' => if decide (k = key) then Some v else field d' key
  end.

(** The four [onResult] closures.  Each captures only the [resolve] and
    [reject] of its promise, so a closure is known by the method it
    belongs to. *)
Inductive callback := OnResultGet | OnResultCreate | OnResultUpdate | OnResultRemove.

(** One call of [this.$request]: the descriptor, the callback, and the
    store the descriptor's references point into at that moment. *)
Record sent := Sent { s_descriptor : descriptor; s_callback : callback; s_store : store }.

(** The state one method invocation runs in: the store, the promise the
    invocation returns, how many times that promise changed state, and
    the calls made to Transport. *)
Record world := World {
  w_store : store;
  w_promise : promise;
  w_settles : nat;
  w_sent : list sent
}.

(** ** Computations: state and exceptions *)

Inductive result (A : Type) := Val (a : A) | Exn (e : error).
Arguments Val {A} a.
Arguments Exn {A} e.

Definition M (A : Type) : Type := world -> result A * world.

Definition ret {A} (a : A) : M A := fun w => (Val a, w).

Definition throw {A} (e : error) : M A := fun w => (Exn e, w).

Definition bind {A B} (m : M A) (k : A -> M B) : M B :=
  fun w =>
    match m w with
    | (Val a, w') => k a w'
    | (Exn e, w') => (Exn e, w')
    end.

Notation "'let!' x ':=' m 'in' k" := (bind m (fun x => k))
  (at level 10, x name, m at level 100, k at level 200).

Notation "m ';;;' k" := (bind m (fun _ => k))
  (at level 100, k at level 200, right associativity).

(** ** The language operations the methods use *)

(** [if (v)], [v || w]: the falsy values are [undefined], [null],
    [false], [+0], [-0], [NaN] and the empty string. *)
Definition truthy (v : value) : bool :=
  match v with
  | VUndefined | VNull => false
  | VBool b => b
  | VNumber (S754_zero _) | VNumber S754_nan => false
  | VNumber _ => true
  | VString EmptyString => false
  | VString _ => true
  | VRef _ => true
  end.

(** An object literal: a new object at a reference nothing holds yet. *)
Definition alloc (o : object) : M value :=
  fun w =>
    let l := fresh (dom (w_store w)) in
    (Val (VRef l),
     World (<[l := o]> (w_store w)) (w_promise w) (w_settles w) (w_sent w)).

(** [v || {}] *)
Definition or_empty (v : value) : M value :=
  if truthy v then ret v else alloc (Object Plain ∅).

(** The value of [v.key] where the access does not throw: an own
    property of the object [v] refers to, [undefined] when there is none.
    Prototypes are left out: the keys this file reads are [filter],
    [limit], [offset] (from a plain mapping, after the type check) and
    [CUSTOMERS], [CUSTOMER_ID], which no built-in prototype defines. *)
Definition property (σ : store) (v : value) (key : string) : value :=
  match v with
  | VRef l =>
      match σ !! l with
      | Some o => default VUndefined (o_props o !! key)
      | None => VUndefined
      end
  | _ => VUndefined
  end.

(** [v.key]: on [null] and [undefined] the access throws. *)
Definition get_prop (v : value) (key : string) : M value :=
  fun w =>
    match v with
    | VUndefined | VNull => (Exn TypeError, w)
    | _ => (Val (property (w_store w) v key), w)
    end.

(** [v.key = x] under ['use strict']: writes into the object [v] refers
    to when the assignment goes through; throws when it does not (a
    frozen, sealed or otherwise inextensible object that lacks the key,
    a property that is not writable), and on [null], [undefined] and a
    primitive. *)
Definition set_prop (v : value) (key : string) (x : value) : M unit :=
  fun w =>
    match v with
    | VRef l =>
        match w_store w !! l with
        | Some o =>
            if assignable o key then
              (Val tt,
               World (<[l := assign o key x]> (w_store w))
                     (w_promise w) (w_settles w) (w_sent w))
            else (Exn TypeError, w)
        | None => (Exn TypeError, w)
        end
    | _ => (Exn TypeError, w)
    end.

(** Modelled from the spec: [./utils/type_handler] is not part of the
    sources.  [typeOf(value).mustBe(expectedKind)] "fails by throwing a
    TypeError-kind error if value's runtime kind does not match
    expectedKind"; the kinds the methods ask for are ["object"], which
    the spec reads as "a plain mapping", and ["number"]. *)
Definition class_name (c : class) : string :=
  match c with Plain => "object" | Array => "array" | ErrorObject => "error" end.

Definition runtime_kind (σ : store) (v : value) : string :=
  match v with
  | VUndefined => "undefined"
  | VNull => "null"
  | VBool _ => "boolean"
  | VNumber _ => "number"
  | VString _ => "string"
  | VRef l =>
      match σ !! l with
      | Some o => class_name (o_class o)
      | None => "undefined"
      end
  end.

Definition typeOf (v : value) : M string :=
  fun w => (Val (runtime_kind (w_store w) v), w).

Definition mustBe (actual expected : string) : M unit :=
  if decide (actual = expected) then ret tt else throw FastbillTypeError.

(** [resolve] and [reject] of a promise: the first call settles it,
    every later call does nothing. *)
Definition settle (s : settlement) : M unit :=
  fun w =>
    match w_promise w with
    | Pending => (Val tt, World (w_store w) (Settled s) (S (w_settles w)) (w_sent w))
    | Settled _ => (Val tt, w)
    end.

Definition resolve (v : value) : M unit := settle (Fulfilled v).

Definition reject (e : error) : M unit := settle (Rejected e).

(** [new Promise(executor)]: the executor runs at once, in a world with
    a pending promise; what it throws rejects the promise. *)
Definition new_Promise (executor : M unit) (σ : store) : world :=
  match executor (World σ Pending 0 []) with
  | (Val _, w) => w
  | (Exn e, w) => snd (reject e w)
  end.

(** ** The [onResult] callbacks *)

Definition get_onResult (err resultset : value) : M unit :=
  if truthy err then
    reject (FastbillInvalidRequestError "Invalid Request to Fastbill." err)
  else
    let! customers := get_prop resultset "CUSTOMERS" in
    resolve customers.

Definition create_onResult (err resultset : value) : M unit :=
  if truthy err then
    reject (FastbillInvalidRequestError "Invalid Request to Fastbill." err)
  else
    let! customer_id := get_prop resultset "CUSTOMER_ID" in
    resolve customer_id.

Definition update_onResult (err resultset : value) : M unit :=
  if truthy err then
    reject (FastbillInvalidRequestError "Invalid Request to Fastbill." err)
  else
    resolve (VBool true).

Definition remove_onResult (err resultset : value) : M unit :=
  if truthy err then
    reject (FastbillInvalidRequestError "Invalid Request to Fastbill." err)
  else
    resolve (VBool true).

Definition onResult (cb : callback) : value -> value -> M unit :=
  match cb with
  | OnResultGet => get_onResult
  | OnResultCreate => create_onResult
  | OnResultUpdate => update_onResult
  | OnResultRemove => remove_onResult
  end.

(** ** Transport *)

(** One invocation of the callback: [callback(err, resultset)]. *)
Record firing := Firing { f_err : value; f_resultset : value }.

(** Modelled from the spec: [FastbillAPI], the base class whose
    [$request] is the Transport, is not part of the sources.  It
    "accepts a request descriptor plus a completion callback (error,
    resultSet) ... and invokes the callback".  What a Transport does
    with one request is given as a script: the invocations it makes
    before [$request] returns, what [$request] then throws if it throws,
    and the invocations it makes after the method has returned.
    Transport writes nothing to the store; the objects it passes are in
    the store from the start. *)
Record transport := Transport {
  during : list firing;
  raises : option error;
  later : list firing
}.

Definition fires (T : transport) : nat := length (during T) + length (later T).

(** The callback run from inside [$request]: what it throws unwinds
    through [$request] into the caller. *)
Fixpoint fire_during (cb : callback) (fs : list firing) : M unit :=
  match fs with
  | [] => ret tt
  | f :: fs' => onResult cb (f_err f) (f_resultset f) ;;; fire_during cb fs'
  end.

(** The callback run after the method returned: what it throws is not
    the promise's business any more. *)
Fixpoint fire_later (cb : callback) (fs : list firing) (w : world) : world :=
  match fs with
  | [] => w
  | f :: fs' => fire_later cb fs' (snd (onResult cb (f_err f) (f_resultset f) w))
  end.

Definition log (d : descriptor) (cb : callback) : M unit :=
  fun w =>
    (Val tt,
     World (w_store w) (w_promise w) (w_settles w)
           (w_sent w ++ [Sent d cb (w_store w)])).

(** [this.$request(descriptor, onResult)] *)
Definition request (T : transport) (d : descriptor) (cb : callback) : M unit :=
  log d cb ;;;
  fire_during cb (during T) ;;;
  match raises T with
  | Some e => throw e
  | None => ret tt
  end.

(** Whatever Transport still has to say to the callbacks it was given. *)
Definition afterwards (T : transport) (w : world) : world :=
  fold_left (fun w' s => fire_later (s_callback s) (later T) w') (w_sent w) w.

(** ** The Customer client *)

(** [super(credentials)] keeps the credentials; the constructor sets
    [this.$scope]. *)
Record Customer := { credentials : value; scope : string }.

Definition customerFactory (credentials : value) : Customer :=
  {| credentials := credentials; scope := "customer." |}.

Section Methods.

Variable T : transport.
Variable this : Customer.

Definition get (options : value) : store -> world :=
  new_Promise (
    let! options := or_empty options in
    let! kind := typeOf options in
    mustBe kind "object" ;;;
    let! filter := get_prop options "filter" in
    let! limit := get_prop options "limit" in
    let! offset := get_prop options "offset" in
    request T [("service", VString (scope this ++ "get"));
               ("filter", filter);
               ("limit", limit);
               ("offset", offset)] OnResultGet).

Definition create (customer : value) : store -> world :=
  new_Promise (
    let! customer := or_empty customer in
    let! kind := typeOf customer in
    mustBe kind "object" ;;;
    request T [("service", VString (scope this ++ "create"));
               ("data", customer)] OnResultCreate).

Definition update (id modification : value) : store -> world :=
  new_Promise (
    let! kind := typeOf id in
    mustBe kind "number" ;;;
    let! kind := typeOf modification in
    mustBe kind "object" ;;;
    set_prop modification "CUSTOMER_ID" id ;;;
    request T [("service", VString (scope this ++ "update"));
               ("data", modification)] OnResultUpdate).

Definition remove (id : value) : store -> world :=
  new_Promise (
    let! kind := typeOf id in
    mustBe kind "number" ;;;
    let! data := alloc (Object Plain {["CUSTOMER_ID" := id]}) in
    request T [("service", VString (scope this ++ "delete"));
               ("data", data)] OnResultRemove).

End Methods.

(** An invocation of one of the four methods; an argument left out is
    [undefined]. *)
Inductive invocation :=
| Get (options : value)
| Create (customer : value)
| Update (id modification : value)
| Remove (id : value).

Definition invoke (T : transport) (this : Customer) (c : invocation) : store -> world :=
  match c with
  | Get options => get T this options
  | Create customer => create T this customer
  | Update id modification => update T this id modification
  | Remove id => remove T this id
  end.

(** The whole life of an invocation: the method call, then the
    callbacks Transport fires later. *)
Definition run (T : transport) (this : Customer) (c : invocation) (σ : store) : world :=
  afterwards T (invoke T this c σ).

(** ** Vocabulary of the specification *)

(** "a plain mapping": a reference to an object of the store built as one. *)
Definition plain_mapping (σ : store) (v : value) : bool :=
  match v with
  | VRef l =>
      match σ !! l with
      | Some o => match o_class o with Plain => true | _ => false end
      | None => false
      end
  | _ => false
  end.

(** "a number" ([NaN] is one). *)
Definition is_number (v : value) : bool :=
  match v with VNumber _ => true | _ => false end.

(** The arguments the local checks of a method let through. *)
Definition accepted (σ : store) (c : invocation) : bool :=
  match c with
  | Get options => negb (truthy options) || plain_mapping σ options
  | Create customer => negb (truthy customer) || plain_mapping σ customer
  | Update id modification => is_number id && plain_mapping σ modification
  | Remove id => is_number id
  end.

(** Transport answers a request with the single firing [f]: from inside
    [$request], or after the method has returned normally. *)
Definition answers (T : transport) (f : firing) : Prop :=
  (during T = [f] ∧ later T = []) ∨
  (during T = [] ∧ raises T = None ∧ later T = [f]).

(** A Transport that never calls back. *)
Definition silent : transport := Transport [] None [].

(** [null] and [undefined], the values a property access throws on. *)
Definition nullish (v : value) : bool :=
  match v with VUndefined | VNull => true | _ => false end.

(** The methods whose callback reads the result set. *)
Definition reads_resultset (c : invocation) : bool :=
  match c with Get _ | Create _ => true | Update _ _ | Remove _ => false end.

(** The world a method leaves when it hands [d] and [cb] to Transport
    in store [σ] as the last thing its executor does. *)
Definition sending (T : transport) (d : descriptor) (cb : callback) (σ : store) : world :=
  new_Promise (request T d cb) σ.

Definition InvalidRequest (err : value) : error :=
  FastbillInvalidRequestError "Invalid Request to Fastbill." err.

(** The callback a method hands to Transport. *)
Definition callback_of (c : invocation) : callback :=
  match c with
  | Get _ => OnResultGet
  | Create _ => OnResultCreate
  | Update _ _ => OnResultUpdate
  | Remove _ => OnResultRemove
  end.

(** The world a method leaves when a local check throws in store [σ]:
    the promise rejected once, nothing sent. *)
Definition refused (σ : store) : world :=
  World σ (Settled (Rejected FastbillTypeError)) 1 [].

(** Whether the one write of the methods goes through: [update] can
    assign [CUSTOMER_ID] to its modification.  The other methods write
    to nothing they are given. *)
Definition takes_id (σ : store) (c : invocation) : bool :=
  match c with
  | Update _ (VRef l) =>
      match σ !! l with
      | Some o => assignable o "CUSTOMER_ID"
      | None => false
      end
  | Update _ _ => false
  | _ => true
  end.

(** The invocations that reach [$request]: the arguments pass the local
    checks and the write, if there is one, goes through. *)
Definition passes (σ : store) (c : invocation) : bool :=
  accepted σ c && takes_id σ c.

(** The world [update] leaves when the assignment to its modification
    throws in store [σ]: the promise rejected once with the language's
    [TypeError], nothing written, nothing sent. *)
Definition blocked (σ : store) : world :=
  World σ (Settled (Rejected TypeError)) 1 [].

(** The promise of [w] is not rejected with the type check's error. *)
Definition unchecked (w : world) : Prop :=
  w_promise w ≠ Settled (Rejected FastbillTypeError).

(** ** Sample data *)

(** The integer [m] as a double. *)
Definition number (m : positive) : value := VNumber (S754_finite false m 0).

Definition zero : value := VNumber (S754_zero false).

Definition sample_client : Customer := customerFactory (VString "api-key").

(** [{FIRST_NAME: "A"}] at reference 1. *)
Definition store_with_modification : store :=
  {[ 1%positive := Object Plain {[ "FIRST_NAME" := VString "A" ]} ]}.

(** [{CUSTOMERS: [a, b]}] at reference 1, the array at 2, the two
    customers at 3 and 4. *)
Definition store_with_customers : store :=
  <[ 1%positive := Object Plain {[ "CUSTOMERS" := VRef 2%positive ]} ]>
  (<[ 2%positive := Object Array (<[ "0" := VRef 3%positive ]>
                                 (<[ "1" := VRef 4%positive ]>
                                 {[ "length" := number 2 ]})) ]>
  (<[ 3%positive := Object Plain {[ "CUSTOMER_ID" := number 1 ]} ]>
  {[ 4%positive := Object Plain {[ "CUSTOMER_ID" := number 2 ]} ]})).

(** [{CUSTOMER_NUMBER: "x"}] at reference 1 and the result set
    [{CUSTOMER_ID: 42}] at reference 2. *)
Definition store_with_entity : store :=
  <[ 1%positive := Object Plain {[ "CUSTOMER_NUMBER" := VString "x" ]} ]>
  {[ 2%positive := Object Plain {[ "CUSTOMER_ID" := number 42 ]} ]}.

(** A frozen [{FIRST_NAME: "A"}] at reference 1. *)
Definition store_with_frozen_modification : store :=
  {[ 1%positive := frozen {[ "FIRST_NAME" := VString "A" ]} ]}.

(** [{FIRST_NAME: "A"}] after [Object.preventExtensions], at reference 1. *)
Definition store_with_inextensible_modification : store :=
  {[ 1%positive := inextensible {[ "FIRST_NAME" := VString "A" ]} ]}.

(** Two options mappings at references 1 and 2: [{limit: 10, offset: 0}]
    and the same with [verbose: true] added. *)
Definition store_with_options : store :=
  <[ 1%positive := Object Plain (<[ "limit" := number 10 ]> {[ "offset" := zero ]}) ]>
  {[ 2%positive := Object Plain (<[ "limit" := number 10 ]>
                                (<[ "offset" := zero ]> {[ "verbose" := VBool true ]})) ]}.

(** ** Proof steps *)

(** Run an executor as far as it is determined. *)
Ltac executor :=
  unfold get, create, update, remove, sending, refused, new_Promise, bind,
    or_empty, alloc, typeOf, set_prop, get_prop, reject, settle, ret, throw;
  cbn [w_store w_promise w_settles w_sent fst snd property runtime_kind].

(** Run a callback as far as it is determined. *)
Ltac callback :=
  unfold onResult, get_onResult, create_onResult, update_onResult,
    remove_onResult, resolve, reject, settle, get_prop, bind, ret, throw;
  cbn [w_store w_promise w_settles w_sent fst snd].

(** Split on how Transport answers, and run the answer. *)
Ltac answer H :=
  match type of H with
  | answers ?T _ =>
      let ra := fresh "ra" in
      destruct T as [? ra ?], H as [[? ?]|[? [? ?]]]; cbn in *; subst;
      unfold sending, new_Promise, request, log, bind;
      cbn [fire_during fire_later during raises later f_err f_resultset];
      callback
  end.

(** ** Basic facts *)

Lemma plain_mapping_kind σ v :
  plain_mapping σ v = true ↔ runtime_kind σ v = "object".
Proof.
  destruct v as [| |b|x|s|l]; simpl; try (split; discriminate).
  destruct (σ !! l) as [o|]; [|split; discriminate].
  destruct (o_class o); simpl; split; (done || discriminate).
Qed.

Lemma is_number_kind σ v :
  is_number v = true ↔ runtime_kind σ v = "number".
Proof.
  destruct v as [| |b|x|s|l]; simpl; try (split; (done || discriminate)).
  destruct (σ !! l) as [o|]; [|split; discriminate].
  destruct (o_class o); simpl; split; discriminate.
Qed.

Lemma plain_mapping_inv σ v :
  plain_mapping σ v = true →
  ∃ l o, v = VRef l ∧ σ !! l = Some o ∧ o_class o = Plain.
Proof.
  destruct v as [| |b|x|s|l]; simpl; try discriminate.
  destruct (σ !! l) as [o|] eqn:E; try discriminate.
  destruct (o_class o) eqn:Ec; try discriminate. eauto.
Qed.

Lemma mustBe_pass k : mustBe k k = ret tt.
Proof. unfold mustBe. by rewrite decide_True. Qed.

Lemma mustBe_fail k k' : k ≠ k' → mustBe k k' = throw FastbillTypeError.
Proof. intros H. unfold mustBe. by rewrite decide_False. Qed.

(** *** The executors, case by case *)

Lemma get_given T this options σ :
  truthy options = true → plain_mapping σ options = true →
  get T this options σ =
  sending T [("service", VString (scope this ++ "get"));
             ("filter", property σ options "filter");
             ("limit", property σ options "limit");
             ("offset", property σ options "offset")] OnResultGet σ.
Proof.
  intros Ht Hp. pose proof Hp as Hk. apply plain_mapping_kind in Hk.
  destruct (plain_mapping_inv _ _ Hp) as (l & ps & -> & Hl).
  executor. rewrite Ht. cbn [w_store]. by rewrite Hk, mustBe_pass.
Qed.

Lemma get_defaulted T this options σ :
  truthy options = false →
  get T this options σ =
  sending T [("service", VString (scope this ++ "get"));
             ("filter", VUndefined);
             ("limit", VUndefined);
             ("offset", VUndefined)] OnResultGet
          (<[fresh (dom σ) := Object Plain ∅]> σ).
Proof.
  intros Ht. executor. rewrite Ht. executor.
  rewrite lookup_insert_eq. unfold Object. cbn [o_class o_props class_name].
  rewrite mustBe_pass. executor. rewrite lookup_insert_eq. unfold Object. cbn [o_props]. by rewrite !lookup_empty.
Qed.

Lemma get_refused T this options σ :
  truthy options = true → plain_mapping σ options = false →
  get T this options σ = refused σ.
Proof.
  intros Ht Hp. executor. rewrite Ht. executor.
  rewrite mustBe_fail; [done|].
  intros Hk. apply plain_mapping_kind in Hk. congruence.
Qed.

Lemma create_given T this customer σ :
  truthy customer = true → plain_mapping σ customer = true →
  create T this customer σ =
  sending T [("service", VString (scope this ++ "create"));
             ("data", customer)] OnResultCreate σ.
Proof.
  intros Ht Hp. apply plain_mapping_kind in Hp.
  executor. rewrite Ht. executor. by rewrite Hp, mustBe_pass.
Qed.

Lemma create_defaulted T this customer σ :
  truthy customer = false →
  create T this customer σ =
  sending T [("service", VString (scope this ++ "create"));
             ("data", VRef (fresh (dom σ)))] OnResultCreate
          (<[fresh (dom σ) := Object Plain ∅]> σ).
Proof.
  intros Ht. executor. rewrite Ht. executor.
  rewrite lookup_insert_eq. unfold Object. cbn [o_class class_name].
  by rewrite mustBe_pass.
Qed.

Lemma create_refused T this customer σ :
  truthy customer = true → plain_mapping σ customer = false →
  create T this customer σ = refused σ.
Proof.
  intros Ht Hp. executor. rewrite Ht. executor.
  rewrite mustBe_fail; [done|].
  intros Hk. apply plain_mapping_kind in Hk. congruence.
Qed.

Lemma update_given T this id l o σ :
  is_number id = true → σ !! l = Some o → o_class o = Plain →
  assignable o "CUSTOMER_ID" = true →
  update T this id (VRef l) σ =
  sending T [("service", VString (scope this ++ "update"));
             ("data", VRef l)] OnResultUpdate
          (<[l := assign o "CUSTOMER_ID" id]> σ).
Proof.
  intros Hn Hl Hc Ha. apply (is_number_kind σ) in Hn.
  executor. rewrite Hn, mustBe_pass. executor.
  rewrite Hl, Hc. cbn [class_name]. rewrite mustBe_pass. executor.
  by rewrite Hl, Ha.
Qed.

Lemma update_blocked T this id l o σ :
  is_number id = true → σ !! l = Some o → o_class o = Plain →
  assignable o "CUSTOMER_ID" = false →
  update T this id (VRef l) σ = blocked σ.
Proof.
  intros Hn Hl Hc Ha. apply (is_number_kind σ) in Hn.
  executor. rewrite Hn, mustBe_pass. executor.
  rewrite Hl, Hc. cbn [class_name]. rewrite mustBe_pass. executor.
  by rewrite Hl, Ha.
Qed.

Lemma update_refused T this id modification σ :
  is_number id && plain_mapping σ modification = false →
  update T this id modification σ = refused σ.
Proof.
  intros H. executor.
  destruct (is_number id) eqn:Hn.
  - apply (is_number_kind σ) in Hn. rewrite Hn, mustBe_pass. executor.
    rewrite mustBe_fail; [done|].
    intros Hk. apply plain_mapping_kind in Hk. by rewrite Hk in H.
  - rewrite mustBe_fail; [done|].
    intros Hk. apply is_number_kind in Hk. congruence.
Qed.

Lemma remove_given T this id σ :
  is_number id = true →
  remove T this id σ =
  sending T [("service", VString (scope this ++ "delete"));
             ("data", VRef (fresh (dom σ)))] OnResultRemove
          (<[fresh (dom σ) := Object Plain {["CUSTOMER_ID" := id]}]> σ).
Proof.
  intros Hn. apply (is_number_kind σ) in Hn.
  executor. by rewrite Hn, mustBe_pass.
Qed.

Lemma remove_refused T this id σ :
  is_number id = false → remove T this id σ = refused σ.
Proof.
  intros Hn. executor. rewrite mustBe_fail; [done|].
  intros Hk. apply is_number_kind in Hk. congruence.
Qed.

Lemma invoke_refused T this c σ :
  accepted σ c = false → invoke T this c σ = refused σ.
Proof.
  destruct c as [o|cu|id m|id]; cbn [accepted invoke]; intros H.
  - apply orb_false_iff in H as [Ht Hp]. apply negb_false_iff in Ht.
    by apply get_refused.
  - apply orb_false_iff in H as [Ht Hp]. apply negb_false_iff in Ht.
    by apply create_refused.
  - by apply update_refused.
  - by apply remove_refused.
Qed.

Lemma not_accepted σ c :
  accepted σ c = false ↔
  match c with
  | Get v | Create v => truthy v = true ∧ plain_mapping σ v = false
  | Update id modification => is_number id = false ∨ plain_mapping σ modification = false
  | Remove id => is_number id = false
  end.
Proof.
  destruct c as [o|cu|id m|id]; cbn [accepted].
  - by rewrite orb_false_iff, negb_false_iff.
  - by rewrite orb_false_iff, negb_false_iff.
  - by rewrite andb_false_iff.
  - done.
Qed.

Lemma passes_update σ id modification :
  passes σ (Update id modification) = true →
  ∃ l o, modification = VRef l ∧ is_number id = true ∧ σ !! l = Some o ∧
         o_class o = Plain ∧ assignable o "CUSTOMER_ID" = true.
Proof.
  unfold passes. cbn [accepted takes_id]. intros H.
  apply andb_true_iff in H as [H Ha]. apply andb_true_iff in H as [Hn Hp].
  destruct (plain_mapping_inv _ _ Hp) as (l & o & -> & Hl & Hc).
  rewrite Hl in Ha. eauto 10.
Qed.

Lemma invoke_accepted T this c σ :
  passes σ c = true →
  ∃ d σ', invoke T this c σ = sending T d (callback_of c) σ'.
Proof.
  destruct c as [o|cu|id m|id]; intros H.
  - apply andb_true_iff in H as [H _]. cbn [accepted invoke callback_of] in *.
    destruct (truthy o) eqn:Ht; cbn in H.
    + eexists _, _. by apply get_given.
    + eexists _, _. by apply get_defaulted.
  - apply andb_true_iff in H as [H _]. cbn [accepted invoke callback_of] in *.
    destruct (truthy cu) eqn:Ht; cbn in H.
    + eexists _, _. by apply create_given.
    + eexists _, _. by apply create_defaulted.
  - destruct (passes_update _ _ _ H) as (l & o & -> & Hn & Hl & Hc & Ha).
    cbn [invoke callback_of]. eexists _, _. by eapply update_given.
  - apply andb_true_iff in H as [H _]. cbn [accepted invoke callback_of] in *.
    eexists _, _. by apply remove_given.
Qed.

Lemma invoke_blocked T this c σ :
  accepted σ c = true → takes_id σ c = false → invoke T this c σ = blocked σ.
Proof.
  destruct c as [o|cu|id m|id]; cbn [accepted takes_id invoke]; try discriminate.
  intros H Ha. apply andb_true_iff in H as [Hn Hp].
  destruct (plain_mapping_inv _ _ Hp) as (l & o & -> & Hl & Hc).
  rewrite Hl in Ha. by eapply update_blocked.
Qed.

(** An invocation ends in one of three ways before Transport has its
    say: the request is handed over, a local check threw, or the write
    of [update] threw. *)
Lemma invoke_cases T this c σ :
  (passes σ c = true ∧ ∃ d σ', invoke T this c σ = sending T d (callback_of c) σ') ∨
  (accepted σ c = false ∧ invoke T this c σ = refused σ) ∨
  (accepted σ c = true ∧ takes_id σ c = false ∧ invoke T this c σ = blocked σ).
Proof.
  destruct (accepted σ c) eqn:Hc; [destruct (takes_id σ c) eqn:Ha|].
  - left. assert (passes σ c = true) as Hp by (unfold passes; by rewrite Hc, Ha).
    split; [done|]. by apply invoke_accepted.
  - right. right. repeat split. by apply invoke_blocked.
  - right. left. split; [done|]. by apply invoke_refused.
Qed.

(** *** What the callbacks and Transport leave alone *)

Lemma onResult_frame cb e r w :
  w_store (onResult cb e r w).2 = w_store w ∧
  w_sent (onResult cb e r w).2 = w_sent w.
Proof.
  destruct cb; callback; destruct (truthy e); try destruct r;
    cbn [w_store w_promise w_settles w_sent fst snd];
    destruct (w_promise w); done.
Qed.

Lemma fire_during_frame cb fs w :
  w_store (fire_during cb fs w).2 = w_store w ∧
  w_sent (fire_during cb fs w).2 = w_sent w.
Proof.
  revert w. induction fs as [|f fs IH]; intros w; [done|].
  cbn [fire_during]. unfold bind.
  pose proof (onResult_frame cb (f_err f) (f_resultset f) w) as [Hs Hl].
  destruct (onResult cb (f_err f) (f_resultset f) w) as [[[]|x] w']; cbn in *.
  - destruct (IH w') as [-> ->]. done.
  - done.
Qed.

Lemma fire_later_frame cb fs w :
  w_store (fire_later cb fs w) = w_store w ∧
  w_sent (fire_later cb fs w) = w_sent w.
Proof.
  revert w. induction fs as [|f fs IH]; intros w; [done|].
  cbn [fire_later]. destruct (IH (onResult cb (f_err f) (f_resultset f) w).2) as [-> ->].
  apply onResult_frame.
Qed.

Lemma sending_frame T d cb σ :
  w_store (sending T d cb σ) = σ ∧ w_sent (sending T d cb σ) = [Sent d cb σ].
Proof.
  unfold sending, new_Promise, request, log, bind.
  cbn [w_store w_promise w_settles w_sent app].
  set (w0 := World σ Pending 0 [Sent d cb σ]).
  pose proof (fire_during_frame cb (during T) w0) as [Hs Hl].
  destruct (fire_during cb (during T) w0) as [[[]|x] w']; cbn in *.
  - destruct (raises T); unfold throw, ret, reject, settle;
      destruct (w_promise w'); cbn; by rewrite ?Hs, ?Hl.
  - unfold reject, settle; destruct (w_promise w'); cbn; by rewrite ?Hs, ?Hl.
Qed.

Lemma afterwards_sending T d cb σ :
  afterwards T (sending T d cb σ) = fire_later cb (later T) (sending T d cb σ).
Proof.
  unfold afterwards. by destruct (sending_frame T d cb σ) as [_ ->].
Qed.

Lemma afterwards_frame T w :
  w_store (afterwards T w) = w_store w ∧ w_sent (afterwards T w) = w_sent w.
Proof.
  unfold afterwards. generalize (w_sent w) at 1 2 as ss.
  intros ss. revert w. induction ss as [|s ss IH]; intros w; [done|].
  cbn [fold_left]. destruct (IH (fire_later (s_callback s) (later T) w)) as [-> ->].
  apply fire_later_frame.
Qed.

Lemma run_refused T this c σ :
  accepted σ c = false → run T this c σ = refused σ.
Proof. intros H. unfold run. by rewrite invoke_refused. Qed.

Lemma run_blocked T this c σ :
  accepted σ c = true → takes_id σ c = false → run T this c σ = blocked σ.
Proof. intros H Ha. unfold run. by rewrite invoke_blocked. Qed.

Lemma sent_passes T this c σ :
  w_sent (run T this c σ) ≠ [] → passes σ c = true.
Proof.
  intros Hs. destruct (invoke_cases T this c σ) as [[Hp _]|[[Hc _]|(Hc & Ha & _)]].
  - done.
  - by rewrite (run_refused _ _ _ _ Hc) in Hs.
  - by rewrite (run_blocked _ _ _ _ Hc Ha) in Hs.
Qed.

(** *** One answer from Transport *)

Lemma answered_error T d cb σ f :
  answers T f → truthy (f_err f) = true →
  afterwards T (sending T d cb σ) =
  World σ (Settled (Rejected (InvalidRequest (f_err f)))) 1 [Sent d cb σ].
Proof.
  intros H Ht. rewrite afterwards_sending. answer H.
  - destruct cb; callback; rewrite Ht; destruct ra; done.
  - destruct cb; callback; rewrite Ht; done.
Qed.

Lemma answered_true T d cb σ f :
  answers T f → truthy (f_err f) = false →
  cb = OnResultUpdate ∨ cb = OnResultRemove →
  afterwards T (sending T d cb σ) =
  World σ (Settled (Fulfilled (VBool true))) 1 [Sent d cb σ].
Proof.
  intros H Ht Hcb. rewrite afterwards_sending. answer H.
  - destruct Hcb as [-> | ->]; callback; rewrite Ht; destruct ra; done.
  - destruct Hcb as [-> | ->]; callback; rewrite Ht; done.
Qed.

Lemma answered_customers T d σ f :
  answers T f → truthy (f_err f) = false → nullish (f_resultset f) = false →
  afterwards T (sending T d OnResultGet σ) =
  World σ (Settled (Fulfilled (property σ (f_resultset f) "CUSTOMERS"))) 1
        [Sent d OnResultGet σ].
Proof.
  intros H Ht Hr. rewrite afterwards_sending. answer H.
  - rewrite Ht. destruct (f_resultset f); try discriminate; destruct ra; done.
  - rewrite Ht. destruct (f_resultset f); try discriminate; done.
Qed.

Lemma answered_customer_id T d σ f :
  answers T f → truthy (f_err f) = false → nullish (f_resultset f) = false →
  afterwards T (sending T d OnResultCreate σ) =
  World σ (Settled (Fulfilled (property σ (f_resultset f) "CUSTOMER_ID"))) 1
        [Sent d OnResultCreate σ].
Proof.
  intros H Ht Hr. rewrite afterwards_sending. answer H.
  - rewrite Ht. destruct (f_resultset f); try discriminate; destruct ra; done.
  - rewrite Ht. destruct (f_resultset f); try discriminate; done.
Qed.

(** *** Settling exactly once *)

Lemma fresh_unused (σ : store) : σ !! fresh (dom σ) = None.
Proof. apply not_elem_of_dom, is_fresh. Qed.

Lemma sending_settles_once T d cb σ :
  fires T = 1 →
  (∀ f, f ∈ later T → truthy (f_err f) = false → nullish (f_resultset f) = true →
        cb = OnResultUpdate ∨ cb = OnResultRemove) →
  let w := afterwards T (sending T d cb σ) in
  w_settles w = 1 ∧ ∃ s, w_promise w = Settled s.
Proof.
  intros Hone Hlater. rewrite afterwards_sending.
  destruct T as [du ra la]. unfold fires in Hone. cbn in Hone, Hlater.
  destruct du as [|f1 [|? ?]], la as [|f2 [|? ?]]; try discriminate Hone;
    unfold sending, new_Promise, request, log, bind;
    cbn [fire_during fire_later during raises later].
  - pose proof (Hlater f2 ltac:(left)) as H2.
    destruct ra as [e|]; callback.
    + destruct cb; callback; destruct (truthy (f_err f2)); try destruct (f_resultset f2);
        cbn; eauto.
    + destruct (truthy (f_err f2)) eqn:Ht.
      * destruct cb; callback; rewrite Ht; cbn; eauto.
      * destruct (nullish (f_resultset f2)) eqn:Hn.
        -- destruct (H2 eq_refl eq_refl) as [-> | ->]; callback; rewrite Ht; cbn; eauto.
        -- destruct cb; callback; rewrite Ht; destruct (f_resultset f2);
             try discriminate Hn; cbn; eauto.
  - destruct cb; callback; destruct (truthy (f_err f1)); try destruct (f_resultset f1);
      destruct ra; cbn; eauto.
Qed.

Lemma reads_resultset_callback c :
  reads_resultset c = false →
  callback_of c = OnResultUpdate ∨ callback_of c = OnResultRemove.
Proof. destruct c; cbn; (discriminate || eauto). Qed.

(** *** The type check's error comes from the type check only *)

Lemma onResult_unchecked cb e r w :
  unchecked w →
  unchecked (onResult cb e r w).2 ∧ (onResult cb e r w).1 ≠ Exn FastbillTypeError.
Proof.
  unfold unchecked. intros H.
  destruct cb; callback; destruct (truthy e); try destruct r;
    cbn [w_store w_promise w_settles w_sent fst snd];
    try (split; [assumption | discriminate]);
    destruct (w_promise w) eqn:E; cbn [w_promise fst snd];
    split; congruence.
Qed.

Lemma fire_during_unchecked cb fs w :
  unchecked w →
  unchecked (fire_during cb fs w).2 ∧ (fire_during cb fs w).1 ≠ Exn FastbillTypeError.
Proof.
  revert w. induction fs as [|f fs IH]; intros w H; [done|].
  cbn [fire_during]. unfold bind.
  pose proof (onResult_unchecked cb (f_err f) (f_resultset f) w H) as [Hu He].
  destruct (onResult cb (f_err f) (f_resultset f) w) as [[[]|x] w']; cbn in *.
  - by apply IH.
  - done.
Qed.

Lemma fire_later_unchecked cb fs w :
  unchecked w → unchecked (fire_later cb fs w).
Proof.
  revert w. induction fs as [|f fs IH]; intros w H; [done|].
  cbn [fire_later]. apply IH. by apply onResult_unchecked.
Qed.

Lemma sending_unchecked T d cb σ :
  raises T ≠ Some FastbillTypeError →
  unchecked (afterwards T (sending T d cb σ)).
Proof.
  intros Hr. rewrite afterwards_sending. apply fire_later_unchecked.
  unfold sending, new_Promise, request, log, bind.
  cbn [w_store w_promise w_settles w_sent app].
  set (w0 := World σ Pending 0 [Sent d cb σ]).
  assert (unchecked w0) as H0 by done.
  pose proof (fire_during_unchecked cb (during T) w0 H0) as [Hu He].
  destruct (fire_during cb (during T) w0) as [[[]|x] w']; cbn in *.
  - destruct (raises T) as [e|]; unfold throw, ret, reject, settle; [|done].
    unfold unchecked in *. destruct (w_promise w') eqn:E; cbn; [|congruence].
    intros [= ->]. done.
  - unfold reject, settle, unchecked in *.
    destruct (w_promise w') eqn:E; cbn; [|congruence].
    intros [= ->]. done.
Qed.

(** ** The claims *)

(** C1 (as stated, refuted): [get(0)] is given a value that is not a
    plain mapping, yet the call does not fail: [0 || {}] is [{}], the
    type check passes, the request goes out and the promise is pending. *)
Lemma get_zero_is_not_refused :
  plain_mapping ∅ zero = false ∧
  w_promise (invoke silent sample_client (Get zero) ∅) = Pending ∧
  length (w_sent (invoke silent sample_client (Get zero) ∅)) = 1.
Proof. vm_compute. done. Qed.

(** C1 (amended): when the arguments do not pass the local checks of a
    method (a truthy [options] of [get] or entity of [create] that is not
    a plain mapping; an [id] of [update] or [remove] that is not a
    number; a [modification] of [update] that is not a plain mapping),
    the promise is rejected with a TypeError-kind error before the call
    returns, Transport is not called, and nothing happens afterwards. *)
Theorem failed_check_rejects_before_transport T this c σ :
  accepted σ c = false →
  ∃ e, TypeError_kind e = true ∧
       w_promise (invoke T this c σ) = Settled (Rejected e) ∧
       w_sent (invoke T this c σ) = [] ∧
       w_store (invoke T this c σ) = σ ∧
       run T this c σ = invoke T this c σ.
Proof.
  intros H. exists FastbillTypeError.
  rewrite (run_refused _ _ _ _ H), (invoke_refused _ _ _ _ H). done.
Qed.

Lemma failed_check_rejects_before_transport_witness :
  ∃ e, TypeError_kind e = true ∧
       w_promise (invoke silent sample_client (Update (VString "5") (VRef 1%positive)) store_with_modification)
         = Settled (Rejected e) ∧
       w_sent (invoke silent sample_client (Update (VString "5") (VRef 1%positive)) store_with_modification) = [] ∧
       w_store (invoke silent sample_client (Update (VString "5") (VRef 1%positive)) store_with_modification)
         = store_with_modification ∧
       run silent sample_client (Update (VString "5") (VRef 1%positive)) store_with_modification
         = invoke silent sample_client (Update (VString "5") (VRef 1%positive)) store_with_modification.
Proof. apply failed_check_rejects_before_transport. reflexivity. Defined.

(** C2: whichever method sent the request, when Transport answers it
    with [(someError, undefined)], [someError] being an error in the
    callback's own sense (truthy), the promise is rejected with the
    InvalidRequestError whose [detail] is [someError] and whose [message]
    is ['Invalid Request to Fastbill.']. *)
Theorem transport_error_rejects T this c σ someError :
  w_sent (run T this c σ) ≠ [] →
  truthy someError = true →
  answers T (Firing someError VUndefined) →
  w_promise (run T this c σ) =
  Settled (Rejected (FastbillInvalidRequestError "Invalid Request to Fastbill." someError)).
Proof.
  intros Hc Ht HT. apply sent_passes in Hc. unfold run.
  destruct (invoke_accepted T this c σ Hc) as (d & σ' & ->).
  by rewrite (answered_error T d _ σ' _ HT Ht).
Qed.

Lemma transport_error_rejects_witness :
  w_promise (run (Transport [] None [Firing (VString "ETIMEDOUT") VUndefined])
                 sample_client (Remove (number 7)) ∅) =
  Settled (Rejected (FastbillInvalidRequestError "Invalid Request to Fastbill."
                                                  (VString "ETIMEDOUT"))).
Proof.
  apply transport_error_rejects; [vm_compute; discriminate | reflexivity |].
  right. repeat split.
Defined.

(** C3: when Transport answers [get] with [(null, resultset)],
    [resultset] a mapping of the store, the promise is fulfilled with
    exactly the value of [resultset.CUSTOMERS] (the very reference when
    it is an array), and no object that was in the store is touched, so
    the array holds the same customers in the same order. *)
Theorem get_resolves_with_CUSTOMERS T this options σ l o :
  accepted σ (Get options) = true →
  σ !! l = Some o →
  answers T (Firing VNull (VRef l)) →
  w_promise (run T this (Get options) σ) =
    Settled (Fulfilled (default VUndefined (o_props o !! "CUSTOMERS"))) ∧
  w_settles (run T this (Get options) σ) = 1 ∧
  ∀ l' o', σ !! l' = Some o' → w_store (run T this (Get options) σ) !! l' = Some o'.
Proof.
  intros Hc Hl HT. unfold run. cbn [invoke accepted] in *.
  destruct (truthy options) eqn:Ht; cbn in Hc.
  - rewrite (get_given _ _ _ _ Ht Hc).
    rewrite (answered_customers T _ σ _ HT eq_refl eq_refl).
    cbn [w_promise w_settles w_store property f_resultset]. by rewrite Hl.
  - rewrite (get_defaulted _ _ _ _ Ht).
    rewrite (answered_customers T _ _ _ HT eq_refl eq_refl).
    cbn [w_promise w_settles w_store property f_resultset].
    assert (∀ l' o', σ !! l' = Some o' →
              <[fresh (dom σ) := Object Plain ∅]> σ !! l' = Some o') as Hkeep.
    { intros l' o' H'. rewrite lookup_insert_ne; [done|].
      intros <-. by rewrite fresh_unused in H'. }
    by rewrite (Hkeep _ _ Hl).
Qed.

Lemma get_resolves_with_CUSTOMERS_witness :
  w_promise (run (Transport [] None [Firing VNull (VRef 1%positive)])
                 sample_client (Get VUndefined) store_with_customers) =
    Settled (Fulfilled (VRef 2%positive)) ∧
  w_settles (run (Transport [] None [Firing VNull (VRef 1%positive)])
                 sample_client (Get VUndefined) store_with_customers) = 1 ∧
  ∀ l' o', store_with_customers !! l' = Some o' →
    w_store (run (Transport [] None [Firing VNull (VRef 1%positive)])
                 sample_client (Get VUndefined) store_with_customers) !! l' = Some o'.
Proof.
  exact (get_resolves_with_CUSTOMERS
           (Transport [] None [Firing VNull (VRef 1%positive)])
           sample_client VUndefined store_with_customers 1%positive
           (Object Plain {[ "CUSTOMERS" := VRef 2%positive ]})
           eq_refl eq_refl (or_intror (conj eq_refl (conj eq_refl eq_refl)))).
Defined.

(** C4 (as stated, refuted): [update(5, m)] with [m] a frozen
    [{FIRST_NAME: "A"}], a number and a plain mapping: the assignment
    [modification.CUSTOMER_ID = id] throws under ['use strict'], nothing
    is written into [m], no request is sent and the promise is rejected
    with the language's [TypeError]. *)
Lemma update_leaves_frozen_modification :
  is_number (number 5) = true ∧
  plain_mapping store_with_frozen_modification (VRef 1%positive) = true ∧
  w_store (run silent sample_client (Update (number 5) (VRef 1%positive))
               store_with_frozen_modification) = store_with_frozen_modification ∧
  property (w_store (run silent sample_client (Update (number 5) (VRef 1%positive))
                         store_with_frozen_modification))
           (VRef 1%positive) "CUSTOMER_ID" = VUndefined ∧
  w_sent (run silent sample_client (Update (number 5) (VRef 1%positive))
              store_with_frozen_modification) = [] ∧
  w_promise (run silent sample_client (Update (number 5) (VRef 1%positive))
                 store_with_frozen_modification) = Settled (Rejected TypeError).
Proof. repeat split; vm_compute; reflexivity. Qed.

(** C4 (amended): [update(id, modification)], [id] a number and
    [modification] a plain mapping that [CUSTOMER_ID] can be assigned to
    (it is not refused as read-only, and the mapping has it already or
    is extensible), writes [CUSTOMER_ID := id] into the caller's own
    object before the request goes out: the store Transport is handed
    and the store the call leaves both hold the object with the field
    set, at the caller's reference, which is also the request's [data]. *)
Theorem update_mutates_modification T this id l o σ :
  is_number id = true →
  σ !! l = Some o →
  o_class o = Plain →
  assignable o "CUSTOMER_ID" = true →
  let σ' := <[l := assign o "CUSTOMER_ID" id]> σ in
  (∃ d, w_sent (invoke T this (Update id (VRef l)) σ) = [Sent d OnResultUpdate σ'] ∧
        field d "data" = Some (VRef l)) ∧
  w_store (invoke T this (Update id (VRef l)) σ) = σ' ∧
  w_store (run T this (Update id (VRef l)) σ) = σ' ∧
  property σ' (VRef l) "CUSTOMER_ID" = id.
Proof.
  intros Hn Hl Hc Ha σ'. unfold run.
  destruct (afterwards_frame T (invoke T this (Update id (VRef l)) σ)) as [-> _].
  cbn [invoke]. rewrite (update_given _ _ _ _ _ _ Hn Hl Hc Ha). fold σ'.
  destruct (sending_frame T
    [("service", VString (scope this ++ "update")); ("data", VRef l)]
    OnResultUpdate σ') as [-> ->].
  repeat split.
  - eexists. split; [reflexivity|]. reflexivity.
  - subst σ'. cbn [property]. rewrite lookup_insert_eq. cbn [assign o_props].
    by rewrite lookup_insert_eq.
Qed.

Lemma update_mutates_modification_witness :
  let σ' := <[1%positive := assign (Object Plain {[ "FIRST_NAME" := VString "A" ]})
                                   "CUSTOMER_ID" (number 5)]>
            store_with_modification in
  (∃ d, w_sent (invoke silent sample_client (Update (number 5) (VRef 1%positive))
                       store_with_modification) = [Sent d OnResultUpdate σ'] ∧
        field d "data" = Some (VRef 1%positive)) ∧
  w_store (invoke silent sample_client (Update (number 5) (VRef 1%positive))
                  store_with_modification) = σ' ∧
  w_store (run silent sample_client (Update (number 5) (VRef 1%positive))
               store_with_modification) = σ' ∧
  property σ' (VRef 1%positive) "CUSTOMER_ID" = number 5.
Proof.
  exact (update_mutates_modification silent sample_client (number 5) 1%positive
           (Object Plain {[ "FIRST_NAME" := VString "A" ]}) store_with_modification
           eq_refl eq_refl eq_refl eq_refl).
Defined.

(** C5 (as stated, refuted): [update(5, m)] with [m] a
    [{FIRST_NAME: "A"}] that [Object.preventExtensions] was applied to, a
    number and a plain mapping: the assignment of the new [CUSTOMER_ID]
    throws, so no request is sent at all, and although Transport stands
    ready to answer without an error the promise is not fulfilled with
    [true] but rejected with the language's [TypeError]. *)
Lemma update_sends_nothing_for_inextensible_modification :
  is_number (number 5) = true ∧
  plain_mapping store_with_inextensible_modification (VRef 1%positive) = true ∧
  answers (Transport [] None [Firing VNull VUndefined]) (Firing VNull VUndefined) ∧
  w_sent (run (Transport [] None [Firing VNull VUndefined]) sample_client
              (Update (number 5) (VRef 1%positive))
              store_with_inextensible_modification) = [] ∧
  w_promise (run (Transport [] None [Firing VNull VUndefined]) sample_client
                 (Update (number 5) (VRef 1%positive))
                 store_with_inextensible_modification) = Settled (Rejected TypeError).
Proof.
  split; [reflexivity|]. split; [reflexivity|]. split; [right; repeat split|].
  split; vm_compute; reflexivity.
Qed.

(** C5 (amended): [update(id, modification)], [id] a number and
    [modification] a plain mapping that [CUSTOMER_ID] can be assigned
    to, sends exactly one request, with [service] ["customer.update"]
    and [data] the modification object, which holds [CUSTOMER_ID: id]
    and every other field it came with; answered without an error the
    promise is fulfilled with [true], answered with an error it is
    rejected with the InvalidRequestError. *)
Theorem update_sends_and_settles credentials id l o σ :
  is_number id = true →
  σ !! l = Some o →
  o_class o = Plain →
  assignable o "CUSTOMER_ID" = true →
  let this := customerFactory credentials in
  let σ' := <[l := assign o "CUSTOMER_ID" id]> σ in
  (∀ T, w_sent (run T this (Update id (VRef l)) σ) =
        [Sent [("service", VString "customer.update"); ("data", VRef l)]
              OnResultUpdate σ']) ∧
  property σ' (VRef l) "CUSTOMER_ID" = id ∧
  (∀ k v, o_props o !! k = Some v → k ≠ "CUSTOMER_ID" → property σ' (VRef l) k = v) ∧
  (∀ T f, answers T f → truthy (f_err f) = false →
          w_promise (run T this (Update id (VRef l)) σ) =
          Settled (Fulfilled (VBool true))) ∧
  (∀ T f, answers T f → truthy (f_err f) = true →
          w_promise (run T this (Update id (VRef l)) σ) =
          Settled (Rejected
            (FastbillInvalidRequestError "Invalid Request to Fastbill." (f_err f)))).
Proof.
  intros Hn Hl Hc Ha this σ'.
  assert (∀ T, run T this (Update id (VRef l)) σ =
               afterwards T (sending T
                 [("service", VString "customer.update"); ("data", VRef l)]
                 OnResultUpdate σ')) as Hrun.
  { intros T. unfold run. cbn [invoke].
    by rewrite (update_given _ _ _ _ _ _ Hn Hl Hc Ha). }
  split; [|split; [|split; [|split]]].
  - intros T. rewrite Hrun, (proj2 (afterwards_frame T _)). apply sending_frame.
  - subst σ'. cbn [property]. rewrite lookup_insert_eq. cbn [assign o_props].
    by rewrite lookup_insert_eq.
  - intros k v Hk Hne. subst σ'. cbn [property]. rewrite lookup_insert_eq.
    cbn [assign o_props]. rewrite lookup_insert_ne; [|done]. by rewrite Hk.
  - intros T f HT Ht. rewrite Hrun, (answered_true T _ _ σ' f HT Ht); [done|by left].
  - intros T f HT Ht. by rewrite Hrun, (answered_error T _ _ σ' f HT Ht).
Qed.

Lemma update_sends_and_settles_witness :
  let id := number 5 in
  let this := sample_client in
  let σ' := <[1%positive := assign (Object Plain {[ "FIRST_NAME" := VString "A" ]})
                                   "CUSTOMER_ID" id]>
            store_with_modification in
  (∀ T, w_sent (run T this (Update id (VRef 1%positive)) store_with_modification) =
        [Sent [("service", VString "customer.update"); ("data", VRef 1%positive)]
              OnResultUpdate σ']) ∧
  property σ' (VRef 1%positive) "CUSTOMER_ID" = id ∧
  (∀ k v, ({[ "FIRST_NAME" := VString "A" ]} : gmap string value) !! k = Some v →
          k ≠ "CUSTOMER_ID" → property σ' (VRef 1%positive) k = v) ∧
  (∀ T f, answers T f → truthy (f_err f) = false →
          w_promise (run T this (Update id (VRef 1%positive)) store_with_modification) =
          Settled (Fulfilled (VBool true))) ∧
  (∀ T f, answers T f → truthy (f_err f) = true →
          w_promise (run T this (Update id (VRef 1%positive)) store_with_modification) =
          Settled (Rejected
            (FastbillInvalidRequestError "Invalid Request to Fastbill." (f_err f)))).
Proof.
  exact (update_sends_and_settles (VString "api-key") (number 5) 1%positive
           (Object Plain {[ "FIRST_NAME" := VString "A" ]}) store_with_modification
           eq_refl eq_refl eq_refl eq_refl).
Defined.

(** The spec's example for C5: [update(5, {FIRST_NAME: "A"})] sends
    [data] holding [FIRST_NAME: "A"] and [CUSTOMER_ID: 5]; answered with
    [(null, undefined)] it resolves to [true], answered with an error it
    rejects with the InvalidRequestError. *)
Example update_5_sends_both_fields_and_settles :
  (∃ d σ', w_sent (run silent sample_client (Update (number 5) (VRef 1%positive))
                       store_with_modification) = [Sent d OnResultUpdate σ'] ∧
           field d "data" = Some (VRef 1%positive) ∧
           property σ' (VRef 1%positive) "FIRST_NAME" = VString "A" ∧
           property σ' (VRef 1%positive) "CUSTOMER_ID" = number 5) ∧
  w_promise (run (Transport [] None [Firing VNull VUndefined]) sample_client
                 (Update (number 5) (VRef 1%positive)) store_with_modification) =
    Settled (Fulfilled (VBool true)) ∧
  w_promise (run (Transport [] None [Firing (VString "ETIMEDOUT") VUndefined])
                 sample_client (Update (number 5) (VRef 1%positive))
                 store_with_modification) =
    Settled (Rejected (FastbillInvalidRequestError "Invalid Request to Fastbill."
                                                    (VString "ETIMEDOUT"))).
Proof.
  split; [|split; vm_compute; reflexivity].
  eexists _, _. split; [vm_compute; reflexivity|].
  repeat split; vm_compute; reflexivity.
Qed.

(** C6: [remove(id)], [id] a number, sends exactly one request, with
    [service] ["customer.delete"] and [data] a new object that is
    exactly [{CUSTOMER_ID: id}]; answered without an error the promise is
    fulfilled with [true], answered with an error it is rejected with
    the InvalidRequestError. *)
Theorem remove_sends_and_settles T credentials id σ :
  is_number id = true →
  let l := fresh (dom σ) in
  let σ' := <[l := Object Plain {["CUSTOMER_ID" := id]}]> σ in
  let w := run T (customerFactory credentials) (Remove id) σ in
  w_sent w = [Sent [("service", VString "customer.delete"); ("data", VRef l)]
                   OnResultRemove σ'] ∧
  σ !! l = None ∧
  σ' !! l = Some (Object Plain {["CUSTOMER_ID" := id]}) ∧
  (∀ f, answers T f → truthy (f_err f) = false →
        w_promise w = Settled (Fulfilled (VBool true))) ∧
  (∀ f, answers T f → truthy (f_err f) = true →
        w_promise w = Settled (Rejected
          (FastbillInvalidRequestError "Invalid Request to Fastbill." (f_err f)))).
Proof.
  intros Hn l σ' w. subst w. unfold run. cbn [invoke].
  rewrite (remove_given _ _ _ _ Hn). fold l. fold σ'.
  change (scope (customerFactory credentials) ++ "delete") with "customer.delete".
  split; [|split; [|split; [|split]]].
  - destruct (afterwards_frame T (sending T
      [("service", VString "customer.delete"); ("data", VRef l)]
      OnResultRemove σ')) as [_ ->].
    apply sending_frame.
  - apply fresh_unused.
  - subst σ'. by rewrite lookup_insert_eq.
  - intros f HT Ht. rewrite (answered_true T _ _ σ' f HT Ht); [done|by right].
  - intros f HT Ht. by rewrite (answered_error T _ _ σ' f HT Ht).
Qed.

Lemma remove_sends_and_settles_witness :
  let T := Transport [Firing VNull (VRef 2%positive)] None [] in
  let id := number 7 in
  let l := fresh (dom store_with_entity) in
  let σ' := <[l := Object Plain {["CUSTOMER_ID" := id]}]> store_with_entity in
  let w := run T sample_client (Remove id) store_with_entity in
  w_sent w = [Sent [("service", VString "customer.delete"); ("data", VRef l)]
                   OnResultRemove σ'] ∧
  store_with_entity !! l = None ∧
  σ' !! l = Some (Object Plain {["CUSTOMER_ID" := id]}) ∧
  (∀ f, answers T f → truthy (f_err f) = false →
        w_promise w = Settled (Fulfilled (VBool true))) ∧
  (∀ f, answers T f → truthy (f_err f) = true →
        w_promise w = Settled (Rejected
          (FastbillInvalidRequestError "Invalid Request to Fastbill." (f_err f)))).
Proof.
  exact (remove_sends_and_settles (Transport [Firing VNull (VRef 2%positive)] None [])
           (VString "api-key") (number 7) store_with_entity eq_refl).
Defined.

(** C7: [create(entity)] takes [{}] for an entity that is left out (or
    falsy), sends exactly one request, with [service] ["customer.create"]
    and [data] the entity mapping itself; answered without an error and
    with a result set, the promise is fulfilled with the result set's
    [CUSTOMER_ID]; answered with an error it is rejected with the
    InvalidRequestError. *)
Theorem create_sends_and_settles T credentials customer σ :
  accepted σ (Create customer) = true →
  let entity := if truthy customer then customer else VRef (fresh (dom σ)) in
  let σ' := if truthy customer then σ else <[fresh (dom σ) := Object Plain ∅]> σ in
  let w := run T (customerFactory credentials) (Create customer) σ in
  w_sent w = [Sent [("service", VString "customer.create"); ("data", entity)]
                   OnResultCreate σ'] ∧
  (truthy customer = false →
     σ !! fresh (dom σ) = None ∧ σ' !! fresh (dom σ) = Some (Object Plain ∅)) ∧
  (∀ f, answers T f → truthy (f_err f) = false → nullish (f_resultset f) = false →
        w_promise w = Settled (Fulfilled (property σ' (f_resultset f) "CUSTOMER_ID"))) ∧
  (∀ f, answers T f → truthy (f_err f) = true →
        w_promise w = Settled (Rejected
          (FastbillInvalidRequestError "Invalid Request to Fastbill." (f_err f)))).
Proof.
  intros Hc entity σ' w. subst w. unfold run. cbn [invoke accepted] in *.
  assert (create T (customerFactory credentials) customer σ =
          sending T [("service", VString "customer.create"); ("data", entity)]
                  OnResultCreate σ') as ->.
  { subst entity σ'. destruct (truthy customer) eqn:Ht; cbn in Hc.
    - by rewrite (create_given _ _ _ _ Ht Hc).
    - by rewrite (create_defaulted _ _ _ _ Ht). }
  split; [|split; [|split]].
  - destruct (afterwards_frame T (sending T
      [("service", VString "customer.create"); ("data", entity)]
      OnResultCreate σ')) as [_ ->].
    apply sending_frame.
  - intros Ht. subst σ'. rewrite Ht. split; [apply fresh_unused|].
    by rewrite lookup_insert_eq.
  - intros f HT Ht Hr. by rewrite (answered_customer_id T _ σ' f HT Ht Hr).
  - intros f HT Ht. by rewrite (answered_error T _ _ σ' f HT Ht).
Qed.

Lemma create_sends_and_settles_witness :
  let T := Transport [] None [Firing VNull (VRef 2%positive)] in
  let w := run T sample_client (Create (VRef 1%positive)) store_with_entity in
  w_sent w = [Sent [("service", VString "customer.create"); ("data", VRef 1%positive)]
                   OnResultCreate store_with_entity] ∧
  (truthy (VRef 1%positive) = false →
     store_with_entity !! fresh (dom store_with_entity) = None ∧
     store_with_entity !! fresh (dom store_with_entity) = Some (Object Plain ∅)) ∧
  (∀ f, answers T f → truthy (f_err f) = false → nullish (f_resultset f) = false →
        w_promise w =
        Settled (Fulfilled (property store_with_entity (f_resultset f) "CUSTOMER_ID"))) ∧
  (∀ f, answers T f → truthy (f_err f) = true →
        w_promise w = Settled (Rejected
          (FastbillInvalidRequestError "Invalid Request to Fastbill." (f_err f)))).
Proof.
  exact (create_sends_and_settles (Transport [] None [Firing VNull (VRef 2%positive)])
           (VString "api-key") (VRef 1%positive) store_with_entity eq_refl).
Defined.

(** The spec's example for C7: [create({CUSTOMER_NUMBER: "x"})], answered
    with [{CUSTOMER_ID: 42}], resolves to [42]. *)
Example create_resolves_to_42 :
  w_promise (run (Transport [] None [Firing VNull (VRef 2%positive)])
                 sample_client (Create (VRef 1%positive)) store_with_entity) =
  Settled (Fulfilled (number 42)).
Proof. vm_compute. reflexivity. Qed.

(** C8: [get(options)], [options] a plain mapping or left out (or
    falsy, and then taken to be a new [{}]), sends exactly one request,
    with [service] ["customer.get"] and with [filter], [limit] and
    [offset] the values of [options.filter], [options.limit] and
    [options.offset] as they are ([undefined] where [options] has none). *)
Theorem get_forwards_options T credentials options σ :
  accepted σ (Get options) = true →
  let given := if truthy options then options else VRef (fresh (dom σ)) in
  let σ' := if truthy options then σ else <[fresh (dom σ) := Object Plain ∅]> σ in
  let w := run T (customerFactory credentials) (Get options) σ in
  w_sent w = [Sent [("service", VString "customer.get");
                    ("filter", property σ' given "filter");
                    ("limit", property σ' given "limit");
                    ("offset", property σ' given "offset")] OnResultGet σ'] ∧
  (truthy options = false → ∀ key, property σ' given key = VUndefined).
Proof.
  intros Hc given σ' w. subst w. unfold run. cbn [invoke accepted] in *.
  assert (∀ key, truthy options = false → property σ' given key = VUndefined) as Hundef.
  { intros key Ht. subst given σ'. rewrite Ht. cbn [property].
    rewrite lookup_insert_eq. unfold Object. cbn [o_props]. by rewrite lookup_empty. }
  split; [|by intros Ht key; apply Hundef].
  destruct (afterwards_frame T (get T (customerFactory credentials) options σ)) as [_ ->].
  destruct (truthy options) eqn:Ht; cbn in Hc.
  - rewrite (get_given _ _ _ _ Ht Hc). subst given σ'. apply sending_frame.
  - rewrite (get_defaulted _ _ _ _ Ht), !Hundef by done. apply sending_frame.
Qed.

Lemma get_forwards_options_witness :
  let σ := store_with_customers in
  let options := VRef 1%positive in
  let w := run silent sample_client (Get options) σ in
  w_sent w = [Sent [("service", VString "customer.get");
                    ("filter", property σ options "filter");
                    ("limit", property σ options "limit");
                    ("offset", property σ options "offset")] OnResultGet σ] ∧
  (truthy options = false → ∀ key, property σ options key = VUndefined).
Proof.
  exact (get_forwards_options silent (VString "api-key") (VRef 1%positive)
           store_with_customers eq_refl).
Defined.

(** C9 (as stated, refuted): Transport invokes the callback of [get()]
    exactly once, after the call has returned, with [(null, undefined)];
    reading [resultset.CUSTOMERS] throws inside the callback and the
    promise is never settled. *)
Lemma get_left_pending_by_empty_answer :
  fires (Transport [] None [Firing VNull VUndefined]) = 1 ∧
  w_promise (run (Transport [] None [Firing VNull VUndefined])
                 sample_client (Get VUndefined) ∅) = Pending ∧
  w_settles (run (Transport [] None [Firing VNull VUndefined])
                 sample_client (Get VUndefined) ∅) = 0.
Proof. vm_compute. done. Qed.

(** C9 (amended): when Transport invokes the callback exactly once and,
    for [get] and [create], an invocation that comes after the method
    has returned and carries no error carries a result set other than
    [null] and [undefined], the promise changes state exactly once over
    the whole invocation and ends settled; that includes the invocations
    that fail a local check. *)
Theorem settles_exactly_once T this c σ :
  fires T = 1 →
  (∀ f, f ∈ later T → reads_resultset c = true → truthy (f_err f) = false →
        nullish (f_resultset f) = false) →
  w_settles (run T this c σ) = 1 ∧ ∃ s, w_promise (run T this c σ) = Settled s.
Proof.
  intros Hone Hlater.
  destruct (invoke_cases T this c σ) as [[_ (d & σ' & E)]|[[Hc _]|(Hc & Ha & _)]].
  - unfold run. rewrite E.
    apply sending_settles_once; [done|].
    intros f Hf Ht Hn. destruct (reads_resultset c) eqn:Hr.
    + specialize (Hlater f Hf eq_refl Ht). congruence.
    + by apply reads_resultset_callback.
  - rewrite (run_refused _ _ _ _ Hc). cbn. eauto.
  - rewrite (run_blocked _ _ _ _ Hc Ha). cbn. eauto.
Qed.

Lemma settles_exactly_once_witness :
  w_settles (run (Transport [] None [Firing VNull (VRef 1%positive)])
                 sample_client (Get VUndefined) store_with_customers) = 1 ∧
  ∃ s, w_promise (run (Transport [] None [Firing VNull (VRef 1%positive)])
                      sample_client (Get VUndefined) store_with_customers) = Settled s.
Proof.
  apply settles_exactly_once; [reflexivity|].
  intros f Hf _ _. apply list_elem_of_singleton in Hf. by subst f.
Defined.

(** C10: a falsy argument ([0], [false], the empty string, [null],
    [NaN], ...) given to [get] as [options] or to [create] as the entity
    is replaced by a new [{}]: the invocation goes exactly as it does
    when the argument is left out, the request is sent, and the promise
    is not rejected with the type check's error (unless Transport itself
    throws that error at the method). *)
Theorem falsy_argument_is_defaulted T this v σ :
  truthy v = false →
  let l := fresh (dom σ) in
  let σ' := <[l := Object Plain ∅]> σ in
  run T this (Get v) σ = run T this (Get VUndefined) σ ∧
  run T this (Create v) σ = run T this (Create VUndefined) σ ∧
  (∃ d, w_sent (run T this (Get v) σ) = [Sent d OnResultGet σ']) ∧
  (∃ d, w_sent (run T this (Create v) σ) = [Sent d OnResultCreate σ'] ∧
        field d "data" = Some (VRef l)) ∧
  (raises T ≠ Some FastbillTypeError →
     w_promise (run T this (Get v) σ) ≠ Settled (Rejected FastbillTypeError) ∧
     w_promise (run T this (Create v) σ) ≠ Settled (Rejected FastbillTypeError)).
Proof.
  intros Ht l σ'. unfold run. cbn [invoke].
  rewrite (get_defaulted T this v σ Ht), (get_defaulted T this VUndefined σ eq_refl).
  rewrite (create_defaulted T this v σ Ht), (create_defaulted T this VUndefined σ eq_refl).
  fold l. fold σ'.
  split; [done|]. split; [done|]. split; [|split].
  - eexists. rewrite (proj2 (afterwards_frame T _)). apply sending_frame.
  - eexists. rewrite (proj2 (afterwards_frame T _)). split; [apply sending_frame|done].
  - intros Hr. split; by apply sending_unchecked.
Qed.

Lemma falsy_argument_is_defaulted_witness :
  let l := fresh (dom (∅ : store)) in
  let σ' := <[l := Object Plain ∅]> (∅ : store) in
  run silent sample_client (Get zero) ∅ = run silent sample_client (Get VUndefined) ∅ ∧
  run silent sample_client (Create zero) ∅ = run silent sample_client (Create VUndefined) ∅ ∧
  (∃ d, w_sent (run silent sample_client (Get zero) ∅) = [Sent d OnResultGet σ']) ∧
  (∃ d, w_sent (run silent sample_client (Create zero) ∅) = [Sent d OnResultCreate σ'] ∧
        field d "data" = Some (VRef l)) ∧
  (raises silent ≠ Some FastbillTypeError →
     w_promise (run silent sample_client (Get zero) ∅)
       ≠ Settled (Rejected FastbillTypeError) ∧
     w_promise (run silent sample_client (Create zero) ∅)
       ≠ Settled (Rejected FastbillTypeError)).
Proof.
  exact (falsy_argument_is_defaulted silent sample_client zero ∅ eq_refl).
Defined.

(** *** A settled promise stays as it is *)

Lemma settle_kept s s' w :
  w_promise w = Settled s → (settle s' w).2 = w.
Proof. intros H. unfold settle. by rewrite H. Qed.

Lemma onResult_kept cb e r w s :
  w_promise w = Settled s → (onResult cb e r w).2 = w.
Proof.
  intros H. destruct cb; callback; destruct (truthy e); try destruct r;
    cbn [fst snd]; by rewrite ?H.
Qed.

Lemma fire_during_kept cb fs w s :
  w_promise w = Settled s → (fire_during cb fs w).2 = w.
Proof.
  revert w. induction fs as [|f fs IH]; intros w H; [done|].
  cbn [fire_during]. unfold bind.
  pose proof (onResult_kept cb (f_err f) (f_resultset f) w s H) as Hk.
  destruct (onResult cb (f_err f) (f_resultset f) w) as [[[]|x] w']; cbn in *;
    subst w'; [by apply IH | done].
Qed.

Lemma fire_later_kept cb fs w s :
  w_promise w = Settled s → fire_later cb fs w = w.
Proof.
  revert w. induction fs as [|f fs IH]; intros w H; [done|].
  cbn [fire_later]. rewrite (onResult_kept _ _ _ _ _ H). by apply IH.
Qed.

(** *** The store a run leaves *)

Lemma run_store T this c σ : w_store (run T this c σ) = w_store (invoke T this c σ).
Proof. unfold run. apply afterwards_frame. Qed.

Lemma run_sent T this c σ : w_sent (run T this c σ) = w_sent (invoke T this c σ).
Proof. unfold run. apply afterwards_frame. Qed.

Lemma insert_fresh_keeps (σ : store) x l o :
  σ !! l = Some o → <[fresh (dom σ) := x]> σ !! l = Some o.
Proof.
  intros H. rewrite lookup_insert_ne; [done|].
  intros <-. by rewrite fresh_unused in H.
Qed.

Lemma update_store T this id l o σ :
  is_number id = true → σ !! l = Some o → o_class o = Plain →
  w_store (run T this (Update id (VRef l)) σ) =
  if assignable o "CUSTOMER_ID" then <[l := assign o "CUSTOMER_ID" id]> σ else σ.
Proof.
  intros Hn Hl Hc. rewrite run_store. cbn [invoke].
  destruct (assignable o "CUSTOMER_ID") eqn:Ha.
  - rewrite (update_given _ _ _ _ _ _ Hn Hl Hc Ha). apply sending_frame.
  - by rewrite (update_blocked _ _ _ _ _ _ Hn Hl Hc Ha).
Qed.

Lemma get_descriptor T this options σ :
  accepted σ (Get options) = true →
  map s_descriptor (w_sent (run T this (Get options) σ)) =
  [[("service", VString (scope this ++ "get"));
    ("filter", property σ options "filter");
    ("limit", property σ options "limit");
    ("offset", property σ options "offset")]].
Proof.
  intros Hc. rewrite run_sent. cbn [invoke accepted] in *.
  destruct (truthy options) eqn:Ht; cbn in Hc.
  - rewrite (get_given _ _ _ _ Ht Hc), (proj2 (sending_frame _ _ _ _)). done.
  - rewrite (get_defaulted _ _ _ _ Ht), (proj2 (sending_frame _ _ _ _)).
    destruct options; try discriminate Ht; done.
Qed.

(** ** Further properties of the four methods *)

(** X1: no method writes to an object that is already in the store,
    except [update] to the modification it is given: after any
    invocation, answered in any way, every other object is as it was. *)
Theorem only_update_writes T this c σ l o :
  σ !! l = Some o →
  (∀ id, c ≠ Update id (VRef l)) →
  w_store (run T this c σ) !! l = Some o.
Proof.
  intros Hl Hc. rewrite run_store.
  destruct (accepted σ c) eqn:Ha; [|by rewrite (invoke_refused _ _ _ _ Ha)].
  destruct c as [v|v|id m|id]; cbn [accepted invoke] in *.
  - destruct (truthy v) eqn:Ht; cbn in Ha.
    + by rewrite (get_given _ _ _ _ Ht Ha), (proj1 (sending_frame _ _ _ _)).
    + rewrite (get_defaulted _ _ _ _ Ht), (proj1 (sending_frame _ _ _ _)).
      by apply insert_fresh_keeps.
  - destruct (truthy v) eqn:Ht; cbn in Ha.
    + by rewrite (create_given _ _ _ _ Ht Ha), (proj1 (sending_frame _ _ _ _)).
    + rewrite (create_defaulted _ _ _ _ Ht), (proj1 (sending_frame _ _ _ _)).
      by apply insert_fresh_keeps.
  - apply andb_true_iff in Ha as [Hn Hp].
    destruct (plain_mapping_inv _ _ Hp) as (l0 & o0 & -> & Hl0 & Hc0).
    destruct (assignable o0 "CUSTOMER_ID") eqn:Hw.
    + rewrite (update_given _ _ _ _ _ _ Hn Hl0 Hc0 Hw), (proj1 (sending_frame _ _ _ _)).
      rewrite lookup_insert_ne; [done|]. intros ->. by apply (Hc id).
    + by rewrite (update_blocked _ _ _ _ _ _ Hn Hl0 Hc0 Hw).
  - rewrite (remove_given _ _ _ _ Ha), (proj1 (sending_frame _ _ _ _)).
    by apply insert_fresh_keeps.
Qed.

Lemma only_update_writes_witness :
  w_store (run (Transport [] None [Firing VNull (VRef 2%positive)])
               sample_client (Create (VRef 1%positive)) store_with_entity) !! 1%positive =
  Some (Object Plain {[ "CUSTOMER_NUMBER" := VString "x" ]}).
Proof.
  exact (only_update_writes (Transport [] None [Firing VNull (VRef 2%positive)])
           sample_client (Create (VRef 1%positive)) store_with_entity 1%positive
           (Object Plain {[ "CUSTOMER_NUMBER" := VString "x" ]})
           eq_refl (fun id H => eq_ind (Create (VRef 1%positive))
              (fun c => match c with Create _ => True | _ => False end) I _ H)).
Defined.

(** X2: a modification object used for two updates carries the
    identifier of the last one: updating with [id1] and then with [id2]
    leaves the store that updating with [id2] alone leaves. *)
Theorem update_last_id_wins T1 T2 this id1 id2 l o σ :
  is_number id1 = true →
  is_number id2 = true →
  σ !! l = Some o →
  o_class o = Plain →
  w_store (run T2 this (Update id2 (VRef l))
               (w_store (run T1 this (Update id1 (VRef l)) σ))) =
  w_store (run T2 this (Update id2 (VRef l)) σ).
Proof.
  intros H1 H2 Hl Hc.
  rewrite (update_store T1 this id1 l o σ H1 Hl Hc).
  rewrite (update_store T2 this id2 l o σ H2 Hl Hc).
  destruct (assignable o "CUSTOMER_ID") eqn:Ha.
  - rewrite (update_store T2 this id2 l (assign o "CUSTOMER_ID" id1) _ H2
               (lookup_insert_eq _ _ _) Hc).
    assert (assignable (assign o "CUSTOMER_ID" id1) "CUSTOMER_ID" = true) as ->.
    { unfold assignable in *. cbn [assign o_props o_readonly o_extensible].
      destruct (decide ("CUSTOMER_ID" ∈ o_readonly o)); [done|].
      by rewrite lookup_insert_eq. }
    unfold assign. cbn [o_class o_props o_extensible o_readonly].
    by rewrite !insert_insert_eq.
  - rewrite (update_store T2 this id2 l o σ H2 Hl Hc). by rewrite Ha.
Qed.

Lemma update_last_id_wins_witness :
  w_store (run silent sample_client (Update (number 7) (VRef 1%positive))
               (w_store (run silent sample_client (Update (number 5) (VRef 1%positive))
                             store_with_modification))) =
  w_store (run silent sample_client (Update (number 7) (VRef 1%positive))
               store_with_modification).
Proof.
  exact (update_last_id_wins silent silent sample_client (number 5) (number 7)
           1%positive (Object Plain {[ "FIRST_NAME" := VString "A" ]})
           store_with_modification eq_refl eq_refl eq_refl eq_refl).
Defined.

(** X3: [get] called again with the same options hands Transport the
    same descriptor, whatever happened to the first call; and a [get]
    that is given its options leaves the store exactly as it found it. *)
Theorem get_twice_same_descriptor T1 T2 this options σ :
  accepted σ (Get options) = true →
  map s_descriptor (w_sent (run T2 this (Get options)
                                (w_store (run T1 this (Get options) σ)))) =
  map s_descriptor (w_sent (run T1 this (Get options) σ)) ∧
  (truthy options = true → w_store (run T1 this (Get options) σ) = σ).
Proof.
  intros Hc.
  assert (truthy options = true → w_store (run T1 this (Get options) σ) = σ) as Hsame.
  { intros Ht. rewrite run_store. cbn [invoke accepted] in *. rewrite Ht in Hc.
    rewrite (get_given _ _ _ _ Ht Hc). apply sending_frame. }
  split; [|done].
  rewrite (get_descriptor T1 this options σ Hc).
  destruct (truthy options) eqn:Ht.
  - rewrite (Hsame eq_refl). by apply get_descriptor.
  - rewrite get_descriptor; [|by cbn; rewrite Ht].
    destruct options; try discriminate Ht; done.
Qed.

Lemma get_twice_same_descriptor_witness :
  map s_descriptor (w_sent (run silent sample_client (Get VUndefined)
       (w_store (run (Transport [] None [Firing VNull (VRef 1%positive)])
                     sample_client (Get VUndefined) store_with_customers)))) =
  map s_descriptor (w_sent (run (Transport [] None [Firing VNull (VRef 1%positive)])
                                sample_client (Get VUndefined) store_with_customers)) ∧
  (truthy VUndefined = true →
   w_store (run (Transport [] None [Firing VNull (VRef 1%positive)])
                sample_client (Get VUndefined) store_with_customers) = store_with_customers).
Proof.
  exact (get_twice_same_descriptor (Transport [] None [Firing VNull (VRef 1%positive)])
           silent sample_client VUndefined store_with_customers eq_refl).
Defined.

(** X4: [get] forwards [filter], [limit] and [offset] and nothing else:
    two options mappings that agree on these three keys give the same
    descriptor, whatever other keys they hold. *)
Theorem get_ignores_other_options T this options1 options2 σ :
  accepted σ (Get options1) = true →
  accepted σ (Get options2) = true →
  property σ options1 "filter" = property σ options2 "filter" →
  property σ options1 "limit" = property σ options2 "limit" →
  property σ options1 "offset" = property σ options2 "offset" →
  map s_descriptor (w_sent (run T this (Get options1) σ)) =
  map s_descriptor (w_sent (run T this (Get options2) σ)).
Proof.
  intros H1 H2 Hf Hl Ho.
  rewrite (get_descriptor T this options1 σ H1), (get_descriptor T this options2 σ H2).
  by rewrite Hf, Hl, Ho.
Qed.

Lemma get_ignores_other_options_witness :
  map s_descriptor (w_sent (run silent sample_client (Get (VRef 1%positive))
                                store_with_options)) =
  map s_descriptor (w_sent (run silent sample_client (Get (VRef 2%positive))
                                store_with_options)).
Proof.
  exact (get_ignores_other_options silent sample_client (VRef 1%positive)
           (VRef 2%positive) store_with_options eq_refl eq_refl eq_refl eq_refl eq_refl).
Defined.

(** *** What a method sends does not depend on Transport *)

Lemma invoke_sending this c σ :
  passes σ c = true →
  ∃ d σ', ∀ T, invoke T this c σ = sending T d (callback_of c) σ'.
Proof.
  destruct c as [o|cu|id m|id]; intros H.
  - apply andb_true_iff in H as [H _]. cbn [accepted invoke callback_of] in *.
    destruct (truthy o) eqn:Ht; cbn in H.
    + eexists _, _. intros T. by apply get_given.
    + eexists _, _. intros T. by apply get_defaulted.
  - apply andb_true_iff in H as [H _]. cbn [accepted invoke callback_of] in *.
    destruct (truthy cu) eqn:Ht; cbn in H.
    + eexists _, _. intros T. by apply create_given.
    + eexists _, _. intros T. by apply create_defaulted.
  - destruct (passes_update _ _ _ H) as (l & o & -> & Hn & Hl & Hc & Ha).
    cbn [invoke callback_of]. eexists _, _. intros T. by eapply update_given.
  - apply andb_true_iff in H as [H _]. cbn [accepted invoke callback_of] in *.
    eexists _, _. intros T. by apply remove_given.
Qed.

(** The outcome of an invocation that never reaches Transport does not
    depend on Transport. *)
Lemma run_unsent T T' this c σ :
  passes σ c = false → run T this c σ = run T' this c σ.
Proof.
  intros Hp.
  destruct (invoke_cases T this c σ) as [[Hp' _]|[[Hc _]|(Hc & Ha & _)]].
  - congruence.
  - by rewrite !(run_refused _ _ _ _ Hc).
  - by rewrite !(run_blocked _ _ _ _ Hc Ha).
Qed.

Lemma reject_settles e w : ∃ s, w_promise (reject e w).2 = Settled s.
Proof.
  unfold reject, settle. destruct (w_promise w) eqn:E; cbn; eauto.
Qed.

Lemma sending_first_now T d cb σ f fs :
  during T = f :: fs →
  w_promise (afterwards (Transport [f] None []) (sending (Transport [f] None []) d cb σ))
    ≠ Pending →
  afterwards T (sending T d cb σ) =
  afterwards (Transport [f] None []) (sending (Transport [f] None []) d cb σ).
Proof.
  intros Hd. rewrite !afterwards_sending. destruct T as [du ra la].
  cbn in Hd. subst du. cbn [later fire_later].
  unfold sending, new_Promise, request, log, bind.
  cbn [w_store w_promise w_settles w_sent app during raises fire_during].
  unfold bind.
  set (w0 := World σ Pending 0 [Sent d cb σ]).
  destruct (onResult cb (f_err f) (f_resultset f) w0) as [[[]|x] w1] eqn:E1.
  - unfold ret. intros Hs.
    destruct (w_promise w1) as [|s] eqn:Hp; [done|].
    pose proof (fire_during_kept cb fs w1 s Hp) as Hk.
    destruct (fire_during cb fs w1) as [[[]|y] w2]; cbn in Hk; subst w2.
    + destruct ra as [e|]; unfold throw, ret; cbn [fst snd].
      * unfold reject. rewrite (settle_kept _ _ _ Hp). by apply fire_later_kept with s.
      * by apply fire_later_kept with s.
    + cbn [fst snd]. unfold reject. rewrite (settle_kept _ _ _ Hp).
      by apply fire_later_kept with s.
  - intros _. destruct (reject_settles x w1) as [s Hs].
    by apply fire_later_kept with s.
Qed.

Lemma sending_first_later T d cb σ f fs :
  during T = [] → raises T = None → later T = f :: fs →
  w_promise (afterwards (Transport [] None [f]) (sending (Transport [] None [f]) d cb σ))
    ≠ Pending →
  afterwards T (sending T d cb σ) =
  afterwards (Transport [] None [f]) (sending (Transport [] None [f]) d cb σ).
Proof.
  intros Hd Hr Hl. rewrite !afterwards_sending. destruct T as [du ra la].
  cbn in Hd, Hr, Hl. subst du ra la. cbn [later fire_later].
  unfold sending, new_Promise, request, log, bind.
  cbn [w_store w_promise w_settles w_sent app during raises fire_during].
  unfold ret. intros Hs.
  set (w0 := World σ Pending 0 [Sent d cb σ]) in *.
  destruct (w_promise (onResult cb (f_err f) (f_resultset f) w0).2) as [|s] eqn:Hp;
    [done|].
  by apply fire_later_kept with s.
Qed.

(** X5: the first answer stands.  When the one call of the callback
    that Transport starts with, from inside [$request], settles the
    promise, nothing Transport does after it (further calls of the
    callback, then or later, or throwing) changes the outcome. *)
Theorem first_answer_in_request_stands T this c σ f fs :
  during T = f :: fs →
  w_promise (run (Transport [f] None []) this c σ) ≠ Pending →
  run T this c σ = run (Transport [f] None []) this c σ.
Proof.
  intros Hd Hs. destruct (passes σ c) eqn:Hc.
  - unfold run in *. destruct (invoke_sending this c σ Hc) as (d & σ' & E).
    rewrite !E in *. by apply sending_first_now with fs.
  - by apply run_unsent.
Qed.

Lemma first_answer_in_request_stands_witness :
  run (Transport [Firing VNull (VRef 1%positive); Firing (VString "late") VUndefined]
                 (Some (Thrown (VString "boom")))
                 [Firing (VString "later") VUndefined])
      sample_client (Get VUndefined) store_with_customers =
  run (Transport [Firing VNull (VRef 1%positive)] None [])
      sample_client (Get VUndefined) store_with_customers.
Proof.
  apply (first_answer_in_request_stands _ _ _ _ _ [Firing (VString "late") VUndefined]);
    [reflexivity|].
  vm_compute. discriminate.
Defined.

(** X6: the first answer stands, also when it comes after the method
    has returned: when the first call of the callback settles the
    promise, the calls that follow change nothing. *)
Theorem first_answer_later_stands T this c σ f fs :
  during T = [] →
  raises T = None →
  later T = f :: fs →
  w_promise (run (Transport [] None [f]) this c σ) ≠ Pending →
  run T this c σ = run (Transport [] None [f]) this c σ.
Proof.
  intros Hd Hr Hl Hs. destruct (passes σ c) eqn:Hc.
  - unfold run in *. destruct (invoke_sending this c σ Hc) as (d & σ' & E).
    rewrite !E in *. by apply sending_first_later with fs.
  - by apply run_unsent.
Qed.

Lemma first_answer_later_stands_witness :
  run (Transport [] None [Firing (VString "ETIMEDOUT") VUndefined;
                          Firing VNull (VRef 2%positive)])
      sample_client (Create (VRef 1%positive)) store_with_entity =
  run (Transport [] None [Firing (VString "ETIMEDOUT") VUndefined])
      sample_client (Create (VRef 1%positive)) store_with_entity.
Proof.
  apply (first_answer_later_stands _ _ _ _ _ [Firing VNull (VRef 2%positive)]);
    [reflexivity | reflexivity | reflexivity |].
  vm_compute. discriminate.
Defined.

(** X8: what [$request], once called, throws before it has called the
    callback rejects the promise as it is: the error is not wrapped into
    an InvalidRequestError, and calls of the callback that come later do
    not change it. *)
Theorem transport_throw_rejects_unwrapped T this c σ e :
  w_sent (run T this c σ) ≠ [] →
  during T = [] →
  raises T = Some e →
  w_promise (run T this c σ) = Settled (Rejected e) ∧
  w_settles (run T this c σ) = 1.
Proof.
  intros Hc Hd Hr. apply sent_passes in Hc. unfold run.
  destruct (invoke_accepted T this c σ Hc) as (d & σ' & ->).
  rewrite afterwards_sending. destruct T as [du ra la]. cbn in Hd, Hr. subst du ra.
  unfold sending, new_Promise, request, log, bind.
  cbn [w_store w_promise w_settles w_sent app during raises later fire_during].
  unfold ret, throw, reject, settle. cbn [w_store w_promise w_settles w_sent fst snd].
  by rewrite (fire_later_kept _ _ _ (Rejected e)).
Qed.

Lemma transport_throw_rejects_unwrapped_witness :
  w_promise (run (Transport [] (Some (Thrown (VString "ECONNREFUSED")))
                            [Firing VNull (VRef 1%positive)])
                 sample_client (Get VUndefined) store_with_customers) =
    Settled (Rejected (Thrown (VString "ECONNREFUSED"))) ∧
  w_settles (run (Transport [] (Some (Thrown (VString "ECONNREFUSED")))
                            [Firing VNull (VRef 1%positive)])
                 sample_client (Get VUndefined) store_with_customers) = 1.
Proof.
  apply transport_throw_rejects_unwrapped;
    [vm_compute; discriminate | reflexivity | reflexivity].
Defined.

(** X9: no method settles its promise on its own.  When the arguments
    pass the checks, the write of [update] into its modification goes
    through, and Transport neither calls the callback nor throws, the
    request is out and the promise stays pending: there is no time-out
    and no default outcome. *)
Theorem unanswered_stays_pending this c σ :
  passes σ c = true →
  w_promise (run silent this c σ) = Pending ∧
  w_settles (run silent this c σ) = 0 ∧
  length (w_sent (run silent this c σ)) = 1.
Proof.
  intros Hc. unfold run.
  destruct (invoke_accepted silent this c σ Hc) as (d & σ' & ->).
  rewrite afterwards_sending. done.
Qed.

Lemma unanswered_stays_pending_witness :
  w_promise (run silent sample_client (Update (number 5) (VRef 1%positive))
                 store_with_modification) = Pending ∧
  w_settles (run silent sample_client (Update (number 5) (VRef 1%positive))
                 store_with_modification) = 0 ∧
  length (w_sent (run silent sample_client (Update (number 5) (VRef 1%positive))
                      store_with_modification)) = 1.
Proof. apply unanswered_stays_pending. reflexivity. Defined.

Lemma sending_pending_iff T d cb σ :
  fires T = 1 →
  w_promise (afterwards T (sending T d cb σ)) = Pending ↔
  (cb = OnResultGet ∨ cb = OnResultCreate) ∧ raises T = None ∧
  ∃ f, later T = [f] ∧ truthy (f_err f) = false ∧ nullish (f_resultset f) = true.
Proof.
  intros Hone. rewrite afterwards_sending.
  destruct T as [du ra la]. unfold fires in Hone. cbn in Hone.
  destruct du as [|f1 [|? ?]], la as [|f2 [|? ?]]; try discriminate Hone;
    unfold sending, new_Promise, request, log, bind;
    cbn [fire_during fire_later during raises later].
  - destruct ra as [e|]; callback.
    + split; [|by intros (_ & ? & _)].
      destruct cb; callback; destruct (truthy (f_err f2));
        try destruct (f_resultset f2); done.
    + destruct (truthy (f_err f2)) eqn:Ht.
      * split; [destruct cb; callback; rewrite Ht; done|].
        intros (_ & _ & f & [= <-] & Hf & _). congruence.
      * destruct (nullish (f_resultset f2)) eqn:Hn.
        -- destruct cb; callback; rewrite Ht; destruct (f_resultset f2) eqn:Er;
             try discriminate Hn; cbn [w_promise fst snd];
             (split; [intros H; try discriminate H;
                      (split; [eauto|split; [done|]]); exists f2; by rewrite Er
                     | intros ([?|?] & _); (done || discriminate)]).
        -- split.
           ++ destruct cb; callback; rewrite Ht; destruct (f_resultset f2);
                try discriminate Hn; done.
           ++ intros (_ & _ & f & [= <-] & _ & Hf). congruence.
  - split.
    + destruct cb; callback; destruct (truthy (f_err f1));
        try destruct (f_resultset f1); destruct ra; done.
    + intros (_ & _ & f & Hf & _). discriminate Hf.
Qed.

(** X10: answered exactly once, an invocation leaves its promise pending
    in one case only: the method is [get] or [create], its arguments
    passed the checks, and the one call of the callback came after the
    method had returned without a throw, with no error and with [null]
    or [undefined] for a result set. *)
Theorem once_answered_pending_iff T this c σ :
  fires T = 1 →
  w_promise (run T this c σ) = Pending ↔
  accepted σ c = true ∧ reads_resultset c = true ∧ raises T = None ∧
  ∃ f, later T = [f] ∧ truthy (f_err f) = false ∧ nullish (f_resultset f) = true.
Proof.
  intros Hone.
  destruct (invoke_cases T this c σ) as [[Hp (d & σ' & E)]|[[Hc _]|(Hc & Ha & _)]].
  - apply andb_true_iff in Hp as [Hc _]. rewrite Hc.
    unfold run. rewrite E, (sending_pending_iff T d _ σ' Hone).
    destruct c; cbn [callback_of reads_resultset]; split;
      try (intros ([?|?] & _); discriminate);
      try (intros (_ & ? & _); discriminate).
    + intros (_ & ?). eauto.
    + intros (_ & _ & ?). eauto.
    + intros (_ & ?). eauto.
    + intros (_ & _ & ?). eauto.
  - rewrite (run_refused _ _ _ _ Hc), Hc. split; [done|]. by intros (? & _).
  - rewrite (run_blocked _ _ _ _ Hc Ha). split; [done|].
    intros (_ & Hr & _). destruct c; try discriminate Ha; discriminate Hr.
Qed.

Lemma once_answered_pending_iff_witness :
  w_promise (run (Transport [] None [Firing VNull VNull])
                 sample_client (Create VUndefined) ∅) = Pending ↔
  accepted ∅ (Create VUndefined) = true ∧
  reads_resultset (Create VUndefined) = true ∧
  raises (Transport [] None [Firing VNull VNull]) = None ∧
  ∃ f, later (Transport [] None [Firing VNull VNull]) = [f] ∧
       truthy (f_err f) = false ∧ nullish (f_resultset f) = true.
Proof. apply once_answered_pending_iff. reflexivity. Defined.

(** X11: an error outranks a result set.  When the one answer of
    Transport to the request it was sent carries a truthy error, every
    method rejects with the InvalidRequestError holding that error,
    whatever it is given for a result set. *)
Theorem error_outranks_resultset T this c σ f :
  w_sent (run T this c σ) ≠ [] →
  answers T f →
  truthy (f_err f) = true →
  w_promise (run T this c σ) =
  Settled (Rejected (FastbillInvalidRequestError "Invalid Request to Fastbill." (f_err f))).
Proof.
  intros Hc HT Ht. apply sent_passes in Hc. unfold run.
  destruct (invoke_accepted T this c σ Hc) as (d & σ' & ->).
  by rewrite (answered_error T d _ σ' f HT Ht).
Qed.

Lemma error_outranks_resultset_witness :
  w_promise (run (Transport [Firing (VString "quota") (VRef 1%positive)] None [])
                 sample_client (Get VUndefined) store_with_customers) =
  Settled (Rejected (FastbillInvalidRequestError "Invalid Request to Fastbill."
                                                  (VString "quota"))).
Proof.
  apply (error_outranks_resultset _ _ _ _ (Firing (VString "quota") (VRef 1%positive)));
    [vm_compute; discriminate | | reflexivity].
  left. split; reflexivity.
Defined.

(** X12: a result set without the payload key is no error.  Answered
    without an error and with a mapping that has no [CUSTOMERS]
    ([CUSTOMER_ID] for [create]), [get] ([create]) fulfils its promise
    with [undefined]. *)
Theorem missing_payload_resolves_undefined T this argument σ l o :
  σ !! l = Some o →
  answers T (Firing VNull (VRef l)) →
  (accepted σ (Get argument) = true → o_props o !! "CUSTOMERS" = None →
   w_promise (run T this (Get argument) σ) = Settled (Fulfilled VUndefined)) ∧
  (accepted σ (Create argument) = true → o_props o !! "CUSTOMER_ID" = None →
   w_promise (run T this (Create argument) σ) = Settled (Fulfilled VUndefined)).
Proof.
  intros Hl HT. split; intros Hc Hk; unfold run; cbn [invoke accepted] in *.
  - destruct (truthy argument) eqn:Ht; cbn in Hc.
    + rewrite (get_given _ _ _ _ Ht Hc).
      rewrite (answered_customers T _ σ _ HT eq_refl eq_refl).
      cbn [w_promise property f_resultset]. by rewrite Hl, Hk.
    + rewrite (get_defaulted _ _ _ _ Ht).
      rewrite (answered_customers T _ _ _ HT eq_refl eq_refl).
      cbn [w_promise property f_resultset].
      by rewrite (insert_fresh_keeps _ _ _ _ Hl), Hk.
  - destruct (truthy argument) eqn:Ht; cbn in Hc.
    + rewrite (create_given _ _ _ _ Ht Hc).
      rewrite (answered_customer_id T _ σ _ HT eq_refl eq_refl).
      cbn [w_promise property f_resultset]. by rewrite Hl, Hk.
    + rewrite (create_defaulted _ _ _ _ Ht).
      rewrite (answered_customer_id T _ _ _ HT eq_refl eq_refl).
      cbn [w_promise property f_resultset].
      by rewrite (insert_fresh_keeps _ _ _ _ Hl), Hk.
Qed.

Lemma missing_payload_resolves_undefined_witness :
  (accepted store_with_entity (Get VUndefined) = true →
   ({[ "CUSTOMER_ID" := number 42 ]} : gmap string value) !! "CUSTOMERS" = None →
   w_promise (run (Transport [] None [Firing VNull (VRef 2%positive)])
                  sample_client (Get VUndefined) store_with_entity) =
   Settled (Fulfilled VUndefined)) ∧
  (accepted store_with_entity (Create VUndefined) = true →
   ({[ "CUSTOMER_ID" := number 42 ]} : gmap string value) !! "CUSTOMER_ID" = None →
   w_promise (run (Transport [] None [Firing VNull (VRef 2%positive)])
                  sample_client (Create VUndefined) store_with_entity) =
   Settled (Fulfilled VUndefined)).
Proof.
  exact (missing_payload_resolves_undefined
           (Transport [] None [Firing VNull (VRef 2%positive)])
           sample_client VUndefined store_with_entity 2%positive
           (Object Plain {[ "CUSTOMER_ID" := number 42 ]})
           eq_refl (or_intror (conj eq_refl (conj eq_refl eq_refl)))).
Defined.

(** X13: Transport is called exactly when the arguments pass the local
    checks and, for [update], [CUSTOMER_ID] can be assigned to the
    modification, and then once: an invocation makes one call of
    [$request] or none, whatever Transport does with it. *)
Theorem one_request_iff_passes T this c σ :
  length (w_sent (run T this c σ)) =
  if accepted σ c && takes_id σ c then 1 else 0.
Proof.
  rewrite run_sent.
  destruct (invoke_cases T this c σ) as [[Hp (d & σ' & E)]|[[Hc E]|(Hc & Ha & E)]];
    rewrite E.
  - unfold passes in Hp. by rewrite Hp, (proj2 (sending_frame _ _ _ _)).
  - by rewrite Hc.
  - by rewrite Hc, Ha.
Qed.

(** X14: [remove] builds its [data] anew at every call: two calls in a
    row hand Transport two different objects, and the second call
    leaves the first one's [{CUSTOMER_ID: id1}] as it was. *)
Theorem remove_builds_new_data T1 T2 this id1 id2 σ :
  is_number id1 = true →
  is_number id2 = true →
  ∃ l1 l2,
    map (λ s, field (s_descriptor s) "data") (w_sent (run T1 this (Remove id1) σ)) =
      [Some (VRef l1)] ∧
    map (λ s, field (s_descriptor s) "data")
        (w_sent (run T2 this (Remove id2) (w_store (run T1 this (Remove id1) σ)))) =
      [Some (VRef l2)] ∧
    l1 ≠ l2 ∧
    w_store (run T2 this (Remove id2) (w_store (run T1 this (Remove id1) σ))) !! l1 =
      Some (Object Plain {["CUSTOMER_ID" := id1]}) ∧
    w_store (run T2 this (Remove id2) (w_store (run T1 this (Remove id1) σ))) !! l2 =
      Some (Object Plain {["CUSTOMER_ID" := id2]}).
Proof.
  intros H1 H2. rewrite !run_store, !run_sent. cbn [invoke].
  rewrite (remove_given T1 _ _ σ H1).
  destruct (sending_frame T1
    [("service", VString (scope this ++ "delete")); ("data", VRef (fresh (dom σ)))]
    OnResultRemove (<[fresh (dom σ) := Object Plain {["CUSTOMER_ID" := id1]}]> σ))
    as [-> ->].
  set (σ1 := <[fresh (dom σ) := Object Plain {["CUSTOMER_ID" := id1]}]> σ).
  rewrite (remove_given T2 _ _ σ1 H2).
  destruct (sending_frame T2
    [("service", VString (scope this ++ "delete")); ("data", VRef (fresh (dom σ1)))]
    OnResultRemove (<[fresh (dom σ1) := Object Plain {["CUSTOMER_ID" := id2]}]> σ1))
    as [-> ->].
  assert (σ1 !! fresh (dom σ) = Some (Object Plain {["CUSTOMER_ID" := id1]})) as Hl1
    by apply lookup_insert_eq.
  exists (fresh (dom σ)), (fresh (dom σ1)). repeat split.
  - intros E. pose proof (fresh_unused σ1) as Hf. rewrite <- E in Hf. congruence.
  - by apply insert_fresh_keeps.
  - apply lookup_insert_eq.
Qed.

Lemma remove_builds_new_data_witness :
  ∃ l1 l2,
    map (λ s, field (s_descriptor s) "data")
        (w_sent (run silent sample_client (Remove (number 7)) ∅)) = [Some (VRef l1)] ∧
    map (λ s, field (s_descriptor s) "data")
        (w_sent (run silent sample_client (Remove (number 5))
                     (w_store (run silent sample_client (Remove (number 7)) ∅)))) =
      [Some (VRef l2)] ∧
    l1 ≠ l2 ∧
    w_store (run silent sample_client (Remove (number 5))
                 (w_store (run silent sample_client (Remove (number 7)) ∅))) !! l1 =
      Some (Object Plain {["CUSTOMER_ID" := number 7]}) ∧
    w_store (run silent sample_client (Remove (number 5))
                 (w_store (run silent sample_client (Remove (number 7)) ∅))) !! l2 =
      Some (Object Plain {["CUSTOMER_ID" := number 5]}).
Proof.
  exact (remove_builds_new_data silent silent sample_client (number 7) (number 5) ∅
           eq_refl eq_refl).
Defined.
